(** * pong.py: a shallow embedding of the Pong simulation core

    The Python program keeps one ball, one paddle and a score inside an
    [arcade.Window] subclass and advances them once per frame.  The
    embedding keeps the classes of the source as modules ([Paddle], [Ball],
    [Pong]); every method becomes a function on the record of the object it
    mutates.

    Numbers.  The score is a Python [int], modelled as [Z].  Coordinates and
    velocities are Python floats; they are modelled as exact rationals [Q].
    Every comparison, negation and +-5 paddle step of the source is exact on
    floats in the ranges the game reaches, so the idealisation only concerns
    the rounding of [Ball.advance] and of [random.uniform].

    Randomness.  [random.uniform(a, b)] is the library function
    [a + (b - a) * random()] with [random()] in the half-open interval
    [0, 1).  The generator is a piece of global state; it is modelled as a
    stream of unit draws with a cursor, threaded through the methods that
    draw from it by a small state monad. *)

From Stdlib Require Import ZArith QArith Qabs Bool List Lia Lqa.
From Stdlib Require Import Ascii String DecimalString DecimalZ DecimalPos.
Import ListNotations.

Local Open Scope Q_scope.

(** ** Comparisons of the source as boolean tests *)

Definition Qltb (a b : Q) : bool := negb (Qle_bool b a).

Notation "a <? b" := (Qltb a b) : Q_scope.
Notation "a <=? b" := (Qle_bool a b) : Q_scope.
Notation "a >? b" := (Qltb b a) (only parsing) : Q_scope.
Notation "a >=? b" := (Qle_bool b a) (only parsing) : Q_scope.

(** ** Global constants *)

Definition SCREEN_WIDTH : Q := 400.
Definition SCREEN_HEIGHT : Q := 300.
Definition BALL_RADIUS : Q := 10.

Definition PADDLE_WIDTH : Q := 10.
Definition PADDLE_HEIGHT : Q := 50.
Definition MOVE_AMOUNT : Q := 5.

Definition SCORE_HIT : Z := 1.
Definition SCORE_MISS : Z := 5.

(** ** The random module *)

Module Random.

(** The generator: an infinite supply of raw draws and the position of
    the next one. *)
Record state := mk { stream : nat -> Q; cursor : nat }.

(** Computations that may draw. *)
Definition M (A : Type) : Type := state -> A * state.

Definition ret {A} (a : A) : M A := fun s => (a, s).

Definition bind {A B} (m : M A) (k : A -> M B) : M B :=
  fun s => let (a, s') := m s in k a s'.

(** [random.random()] *)
Definition random : M Q :=
  fun s => (stream s (cursor s), mk (stream s) (S (cursor s))).

(** [random.uniform(a, b)] *)
Definition uniform (a b : Q) : M Q :=
  bind random (fun u => ret (a + (b - a) * u)).

(** Every raw draw lies in [0, 1). *)
Definition unit_draws (s : state) : Prop :=
  forall n, 0 <= stream s n /\ stream s n < 1.

(** The generator that always returns [u]. *)
Definition constant (u : Q) : state := mk (fun _ => u) 0.

End Random.

Notation "x <- m ;; k" := (Random.bind m (fun x => k))
  (at level 61, m at next level, right associativity).

(** ** Point and Velocity *)

Record Point := mkPoint { x : Q; y : Q }.

Record Velocity := mkVelocity { dx : Q; dy : Q }.

(** [Point()] and [Velocity()] as the constructors leave them. *)
Definition Point_init : Point := mkPoint 0 0.
Definition Velocity_init : Velocity := mkVelocity 1 1.

(** ** Drawing

    The [draw] methods return nothing; what they do is call the drawing
    primitives of the arcade framework.  A drawing method is modelled as
    the list of primitive calls it makes, in order, with their arguments. *)

Inductive Color := AFRICAN_VIOLET | BLACK | NAVY_BLUE | WHITE.

Inductive draw_call :=
| start_render
| draw_rectangle_filled (center_x center_y width height : Q) (color : Color)
| draw_circle_filled (center_x center_y radius : Q) (color : Color)
| draw_text (text : string) (start_x start_y : Q) (font_size : Q)
            (color : Color).

(** [str(n)] for a Python [int], which is what ["{}".format(n)] prints. *)
Definition str_int (n : Z) : string := NilZero.string_of_int (Z.to_int n).

(** ** Paddle *)

Module Paddle.

Record t := mk { center : Point }.

Definition init : t :=
  let c := Point_init in
  let c := mkPoint (SCREEN_WIDTH - PADDLE_WIDTH) (y c) in
  let c := mkPoint (x c) (SCREEN_HEIGHT * 0.5) in
  mk c.

Definition draw (p : t) : list draw_call :=
  [draw_rectangle_filled (x (center p)) (y (center p))
     PADDLE_WIDTH PADDLE_HEIGHT AFRICAN_VIOLET].

Definition move_up (p : t) : t :=
  mk (mkPoint (x (center p)) (y (center p) + 5)).

Definition move_down (p : t) : t :=
  mk (mkPoint (x (center p)) (y (center p) - 5)).

End Paddle.

(** ** Ball *)

Module Ball.

Record t := mk { center : Point; velocity : Velocity }.

Definition init : Random.M t :=
  let c := Point_init in
  let v := Velocity_init in
  let c := mkPoint 0 (y c) in
  y0 <- Random.uniform 0 SCREEN_HEIGHT ;;
  let c := mkPoint (x c) y0 in
  dx0 <- Random.uniform 3 5 ;;
  let v := mkVelocity dx0 (dy v) in
  dy0 <- Random.uniform 3 5 ;;
  let v := mkVelocity (dx v) dy0 in
  Random.ret (mk c v).

Definition draw (b : t) : list draw_call :=
  [draw_circle_filled (x (center b)) (y (center b)) BALL_RADIUS BLACK].

Definition advance (b : t) : t :=
  mk (mkPoint (x (center b) + dx (velocity b))
              (y (center b) + dy (velocity b)))
     (velocity b).

Definition bounce_horizontal (b : t) : t :=
  mk (center b) (mkVelocity (dx (velocity b) * -1) (dy (velocity b))).

Definition bounce_vertical (b : t) : t :=
  mk (center b) (mkVelocity (dx (velocity b)) (dy (velocity b) * -1)).

Definition restart (b : t) : Random.M t :=
  y0 <- Random.uniform 0 SCREEN_HEIGHT ;;
  dx0 <- Random.uniform 3 5 ;;
  dy0 <- Random.uniform 3 5 ;;
  Random.ret (mk (mkPoint 0 y0) (mkVelocity dx0 dy0)).

End Ball.

(** ** Keys of the arcade framework

    [arcade.key] gives every key an integer code; the program only compares
    a key with the four arrow constants, so the codes are kept abstract. *)

Inductive Key := LEFT | RIGHT | UP | DOWN | OTHER (code : Z).

Definition Key_eqb (a b : Key) : bool :=
  match a, b with
  | LEFT, LEFT | RIGHT, RIGHT | UP, UP | DOWN, DOWN => true
  | OTHER c, OTHER d => Z.eqb c d
  | _, _ => false
  end.

(** ** Pong: the window object and its callbacks *)

Module Pong.

Record t := mk {
  ball : Ball.t;
  paddle : Paddle.t;
  score : Z;
  holding_left : bool;
  holding_right : bool
}.

Definition set_ball (b : Ball.t) (g : t) : t :=
  mk b (paddle g) (score g) (holding_left g) (holding_right g).

Definition set_paddle (p : Paddle.t) (g : t) : t :=
  mk (ball g) p (score g) (holding_left g) (holding_right g).

Definition set_score (n : Z) (g : t) : t :=
  mk (ball g) (paddle g) n (holding_left g) (holding_right g).

Definition set_holding_left (h : bool) (g : t) : t :=
  mk (ball g) (paddle g) (score g) h (holding_right g).

Definition set_holding_right (h : bool) (g : t) : t :=
  mk (ball g) (paddle g) (score g) (holding_left g) h.

(** [Pong.__init__(width, height)]: the two arguments only size the
    window. *)
Definition init (width height : Q) : Random.M t :=
  b <- Ball.init ;;
  Random.ret (mk b Paddle.init 0%Z false false).

Definition draw_score (g : t) : list draw_call :=
  let score_text := ("Score: " ++ str_int (score g))%string in
  let start_x := 10 in
  let start_y := SCREEN_HEIGHT - 20 in
  [draw_text score_text start_x start_y 12 NAVY_BLUE].

Definition on_draw (g : t) : list draw_call :=
  [start_render] ++ Ball.draw (ball g) ++ Paddle.draw (paddle g)
  ++ draw_score g.

Definition check_hit (g : t) : t :=
  let too_close_x := PADDLE_WIDTH / 2 + BALL_RADIUS in
  let too_close_y := PADDLE_HEIGHT / 2 + BALL_RADIUS in
  if (Qabs (x (Ball.center (ball g)) - x (Paddle.center (paddle g)))
        <? too_close_x)
     && (Qabs (y (Ball.center (ball g)) - y (Paddle.center (paddle g)))
        <? too_close_y)
     && (dx (Ball.velocity (ball g)) >? 0)
  then
    let g := set_ball (Ball.bounce_horizontal (ball g)) g in
    set_score (score g + SCORE_HIT)%Z g
  else g.

Definition check_miss (g : t) : Random.M t :=
  if x (Ball.center (ball g)) >? SCREEN_WIDTH then
    let g := if (score g >=? 5)%Z
             then set_score (score g - SCORE_MISS)%Z g
             else set_score 0%Z g in
    b <- Ball.restart (ball g) ;;
    Random.ret (set_ball b g)
  else Random.ret g.

(** The three wall tests of [check_bounce], in the order of the source. *)
Definition left_wall (g : t) : bool :=
  (x (Ball.center (ball g)) - BALL_RADIUS <? 0)
  && (dx (Ball.velocity (ball g)) <? 0).

Definition top_wall (g : t) : bool :=
  (y (Ball.center (ball g)) - BALL_RADIUS <? 0)
  && (dy (Ball.velocity (ball g)) <? 0).

Definition bottom_wall (g : t) : bool :=
  (y (Ball.center (ball g)) + BALL_RADIUS >? SCREEN_HEIGHT)
  && (dy (Ball.velocity (ball g)) >? 0).

Definition bounce_left (g : t) : t :=
  if left_wall g
  then set_ball (Ball.bounce_horizontal (ball g)) g else g.

Definition bounce_top (g : t) : t :=
  if top_wall g
  then set_ball (Ball.bounce_vertical (ball g)) g else g.

Definition bounce_bottom (g : t) : t :=
  if bottom_wall g
  then set_ball (Ball.bounce_vertical (ball g)) g else g.

Definition check_bounce (g : t) : t :=
  bounce_bottom (bounce_top (bounce_left g)).

Definition check_keys (g : t) : t :=
  let g :=
    if holding_left g
       && (y (Paddle.center (paddle g)) - PADDLE_HEIGHT * 0.5 >=? 0)
    then set_paddle (Paddle.move_down (paddle g)) g else g in
  if holding_right g
     && (y (Paddle.center (paddle g)) + PADDLE_HEIGHT * 0.5 <? SCREEN_HEIGHT)
  then set_paddle (Paddle.move_up (paddle g)) g else g.

Definition update (delta_time : Q) (g : t) : Random.M t :=
  let g := set_ball (Ball.advance (ball g)) g in
  let g := check_keys g in
  g <- check_miss g ;;
  let g := check_hit g in
  Random.ret (check_bounce g).

Definition on_key_press (key : Key) (g : t) : t :=
  let g := if Key_eqb key LEFT || Key_eqb key DOWN
           then set_holding_left true g else g in
  if Key_eqb key RIGHT || Key_eqb key UP
  then set_holding_right true g else g.

Definition on_key_release (key : Key) (g : t) : t :=
  let g := if Key_eqb key LEFT || Key_eqb key DOWN
           then set_holding_left false g else g in
  if Key_eqb key RIGHT || Key_eqb key UP
  then set_holding_right false g else g.

End Pong.

(** ** The frame loop of [arcade.run()]

    The framework calls back into the window: one [update] per frame, key
    callbacks in between. *)

Inductive event :=
| Update (delta_time : Q)
| KeyPress (key : Key)
| KeyRelease (key : Key).

Definition step (e : event) (g : Pong.t) : Random.M Pong.t :=
  match e with
  | Update delta_time => Pong.update delta_time g
  | KeyPress key => Random.ret (Pong.on_key_press key g)
  | KeyRelease key => Random.ret (Pong.on_key_release key g)
  end.

Fixpoint run (es : list event) (g : Pong.t) : Random.M Pong.t :=
  match es with
  | [] => Random.ret g
  | e :: es' => g' <- step e g ;; run es' g'
  end.

(** [window = Pong(SCREEN_WIDTH, SCREEN_HEIGHT)], then the frame loop. *)
Definition play (es : list event) : Random.M Pong.t :=
  g <- Pong.init SCREEN_WIDTH SCREEN_HEIGHT ;; run es g.

(** States the program can be in: some generator with unit draws, some
    sequence of callbacks. *)
Definition reachable (g : Pong.t) : Prop :=
  exists s es, Random.unit_draws s /\ fst (play es s) = g.

(** ** The calls [check_bounce] makes on the ball

    An instrumented reading of [check_bounce]: the same three tests in the
    same order, recording which bounce method each one invokes. *)

Inductive bounce_call := bounce_horizontal_call | bounce_vertical_call.

Definition do_call (g : Pong.t) (c : bounce_call) : Pong.t :=
  match c with
  | bounce_horizontal_call =>
      Pong.set_ball (Ball.bounce_horizontal (Pong.ball g)) g
  | bounce_vertical_call =>
      Pong.set_ball (Ball.bounce_vertical (Pong.ball g)) g
  end.

Definition check_bounce_calls (g : Pong.t) : list bounce_call :=
  let c1 := if Pong.left_wall g then [bounce_horizontal_call] else [] in
  let g := Pong.bounce_left g in
  let c2 := if Pong.top_wall g then [bounce_vertical_call] else [] in
  let g := Pong.bounce_top g in
  let c3 := if Pong.bottom_wall g then [bounce_vertical_call] else [] in
  c1 ++ c2 ++ c3.

(** ** Predicates and sample states used by the properties *)

(** The test of [check_hit], as a proposition. *)
Definition hit_condition (g : Pong.t) : Prop :=
  Qabs (x (Ball.center (Pong.ball g)) - x (Paddle.center (Pong.paddle g)))
    < PADDLE_WIDTH / 2 + BALL_RADIUS /\
  Qabs (y (Ball.center (Pong.ball g)) - y (Paddle.center (Pong.paddle g)))
    < PADDLE_HEIGHT / 2 + BALL_RADIUS /\
  0 < dx (Ball.velocity (Pong.ball g)).

(** Both velocity components have magnitude within [3, 5]. *)
Definition speed_ok (b : Ball.t) : Prop :=
  (3 <= Qabs (dx (Ball.velocity b)) /\ Qabs (dx (Ball.velocity b)) <= 5) /\
  (3 <= Qabs (dy (Ball.velocity b)) /\ Qabs (dy (Ball.velocity b)) <= 5).

(** The band the paddle centre stays in: the nominal band
    [PADDLE_HEIGHT/2, SCREEN_HEIGHT - PADDLE_HEIGHT/2] widened by one move
    at each end. *)
Definition paddle_band (p : Paddle.t) : Prop :=
  PADDLE_HEIGHT / 2 - MOVE_AMOUNT <= y (Paddle.center p) /\
  y (Paddle.center p) <= SCREEN_HEIGHT - PADDLE_HEIGHT / 2 + MOVE_AMOUNT.

(** The scenario of the specification: score 3, ball at x = 401. *)
Definition miss_at_three : Pong.t :=
  Pong.mk (Ball.mk (mkPoint 401 120) (mkVelocity 4 3)) Paddle.init 3 false
          false.

(** The scenario of the specification: the ball 4 units left of the
    paddle, 30 units off its centre, moving right at 3. *)
Definition hit_at_paddle : Pong.t :=
  Pong.mk (Ball.mk (mkPoint 386 180) (mkVelocity 3 4)) Paddle.init 6 false
          false.

(** Three frames with the left arrow held, the generator stuck at one
    half. *)
Definition three_frames : list event :=
  [KeyPress LEFT; Update 0.016; Update 0.016; Update 0.017].

(** A hundred frames without touching the keys, the generator stuck at one
    half: the ball has come down past the paddle and stands at x = 400; the
    next frame takes it to 404. *)
Definition hundred_frames : list event := repeat (Update 0.016) 100.

(** The paddle centre sits on the grid of its 5-unit moves, between 20
    and 275. *)
Definition paddle_on_grid (p : Paddle.t) : Prop :=
  exists k : Z, y (Paddle.center p) == 5 * inject_Z k /\ (4 <= k <= 55)%Z.

(** Where the ball can be between two frames, by direction of travel. *)
Definition ball_in_arena (b : Ball.t) : Prop :=
  (0 < dx (Ball.velocity b) ->
     0 <= x (Ball.center b) /\ x (Ball.center b) <= SCREEN_WIDTH) /\
  (dx (Ball.velocity b) < 0 ->
     BALL_RADIUS <= x (Ball.center b) /\ x (Ball.center b) <= SCREEN_WIDTH) /\
  (0 < dy (Ball.velocity b) ->
     0 <= y (Ball.center b) /\ y (Ball.center b) <= SCREEN_HEIGHT) /\
  (dy (Ball.velocity b) < 0 ->
     BALL_RADIUS <= y (Ball.center b) /\
     y (Ball.center b) <= SCREEN_HEIGHT + 5).

(** Where the ball can be inside a frame, once [check_miss] has run and
    before the walls are looked at. *)
Definition ball_in_flight (b : Ball.t) : Prop :=
  (0 < dx (Ball.velocity b) ->
     0 <= x (Ball.center b) /\ x (Ball.center b) <= SCREEN_WIDTH) /\
  (dx (Ball.velocity b) < 0 ->
     5 <= x (Ball.center b) /\ x (Ball.center b) <= SCREEN_WIDTH) /\
  (0 < dy (Ball.velocity b) ->
     0 <= y (Ball.center b) /\ y (Ball.center b) <= SCREEN_HEIGHT + 5) /\
  (dy (Ball.velocity b) < 0 ->
     5 <= y (Ball.center b) /\ y (Ball.center b) <= SCREEN_HEIGHT + 5).

Definition is_key_event (e : event) : bool :=
  match e with
  | Update _ => false
  | KeyPress _ | KeyRelease _ => true
  end.

(** The number of frames in a sequence of callbacks. *)
Definition frames (es : list event) : nat :=
  List.length (filter (fun e => negb (is_key_event e)) es).

(** Reading a line of text back: what follows a given prefix, and the
    score a score line shows. *)
Fixpoint strip_prefix (p s : string) : option string :=
  match p with
  | EmptyString => Some s
  | String a p' =>
      match s with
      | EmptyString => None
      | String b s' => if Ascii.eqb a b then strip_prefix p' s' else None
      end
  end.

Definition read_score (text : string) : option Z :=
  match strip_prefix "Score: " text with
  | Some digits => option_map Z.of_int (NilZero.int_of_string digits)
  | None => None
  end.

(** The lines of text a list of drawing calls puts on the screen. *)
Fixpoint drawn_texts (calls : list draw_call) : list string :=
  match calls with
  | [] => []
  | draw_text text _ _ _ _ :: calls' => text :: drawn_texts calls'
  | _ :: calls' => drawn_texts calls'
  end.

(** A state with no key held, and a few key events. *)
Definition idle_game : Pong.t :=
  Pong.mk (Ball.mk (mkPoint 120 80) (mkVelocity 4 (-3))) Paddle.init 2 false
          false.

Definition some_keys : list event :=
  [KeyPress LEFT; KeyPress (OTHER 97); KeyRelease DOWN; KeyPress UP].

(** * Properties *)

(** ** Arithmetic helpers *)

Lemma Qltb_lt (a b : Q) : (a <? b) = true <-> a < b.
Proof.
  unfold Qltb. rewrite negb_true_iff. split.
  - intros E. apply Qnot_le_lt. intros Hle.
    apply Qle_bool_iff in Hle. congruence.
  - intros Hlt. destruct (Qle_bool b a) eqn:E; trivial.
    apply Qle_bool_iff in E. exfalso. exact (Qlt_not_le _ _ Hlt E).
Qed.

Lemma Qltb_ge (a b : Q) : (a <? b) = false <-> b <= a.
Proof.
  unfold Qltb. rewrite negb_false_iff. apply Qle_bool_iff.
Qed.

(** Multiplying by the literal [-1] is negation, on the nose. *)
Lemma Qmult_m1_r (q : Q) : q * -1 = - q.
Proof.
  destruct q as [n d]. unfold Qmult, Qopp. simpl.
  rewrite Pos.mul_1_r. f_equal. lia.
Qed.

Lemma Qopp_opp (q : Q) : - - q = q.
Proof.
  destruct q as [n d]. unfold Qopp. simpl. f_equal. lia.
Qed.

Lemma Qabs_flip (q : Q) : Qabs (q * -1) == Qabs q.
Proof. rewrite Qmult_m1_r. apply Qabs_opp. Qed.

(** The two half-sizes of the source; [lra] does not read quotients, so
    they are replaced by their values before it is called. *)
Lemma half_paddle_height : PADDLE_HEIGHT / 2 == 25.
Proof. reflexivity. Qed.

Lemma half_paddle_width : PADDLE_WIDTH / 2 == 5.
Proof. reflexivity. Qed.

Ltac game_lra :=
  rewrite ?half_paddle_height, ?half_paddle_width in *;
  unfold PADDLE_HEIGHT, PADDLE_WIDTH, SCREEN_HEIGHT, SCREEN_WIDTH,
    MOVE_AMOUNT, BALL_RADIUS in *;
  lra.

(** ** The generator *)

Lemma uniform_range (a b : Q) (s : Random.state) :
  a <= b -> Random.unit_draws s ->
  a <= fst (Random.uniform a b s) /\ fst (Random.uniform a b s) <= b.
Proof.
  intros Hab Hs. destruct (Hs (Random.cursor s)) as [H0 H1].
  unfold Random.uniform, Random.bind, Random.random, Random.ret. simpl.
  set (u := Random.stream s (Random.cursor s)) in *.
  split; nra.
Qed.

Lemma uniform_stream (a b : Q) (s : Random.state) :
  Random.stream (snd (Random.uniform a b s)) = Random.stream s.
Proof. reflexivity. Qed.

Lemma unit_draws_stream (s s' : Random.state) :
  Random.stream s' = Random.stream s ->
  Random.unit_draws s -> Random.unit_draws s'.
Proof. unfold Random.unit_draws. intros E H n. rewrite E. apply H. Qed.

Lemma unit_draws_constant : Random.unit_draws (Random.constant 0.5).
Proof. intros n. split; simpl; [discriminate | reflexivity]. Defined.

(** ** Ball *)

Section BallFacts.

Variable b : Ball.t.
Variable s : Random.state.

(** What [restart] writes, draw by draw. *)
Lemma restart_unfold :
  let r1 := Random.uniform 0 SCREEN_HEIGHT s in
  let r2 := Random.uniform 3 5 (snd r1) in
  let r3 := Random.uniform 3 5 (snd r2) in
  Ball.restart b s =
  (Ball.mk (mkPoint 0 (fst r1)) (mkVelocity (fst r2) (fst r3)), snd r3).
Proof. reflexivity. Qed.

Hypothesis Hs : Random.unit_draws s.

Lemma restart_ranges :
  let b' := fst (Ball.restart b s) in
  x (Ball.center b') = 0 /\
  (0 <= y (Ball.center b') /\ y (Ball.center b') <= SCREEN_HEIGHT) /\
  (3 <= dx (Ball.velocity b') /\ dx (Ball.velocity b') <= 5) /\
  (3 <= dy (Ball.velocity b') /\ dy (Ball.velocity b') <= 5).
Proof.
  rewrite restart_unfold. cbv zeta. cbn [fst Ball.center Ball.velocity x y dx dy].
  split; [reflexivity|].
  assert (H2 : Random.unit_draws (snd (Random.uniform 0 SCREEN_HEIGHT s)))
    by (eapply unit_draws_stream; [apply uniform_stream | exact Hs]).
  assert (H3 : Random.unit_draws
                 (snd (Random.uniform 3 5
                         (snd (Random.uniform 0 SCREEN_HEIGHT s)))))
    by (eapply unit_draws_stream; [apply uniform_stream | exact H2]).
  repeat split; apply uniform_range; trivial; discriminate.
Qed.

End BallFacts.

(** C4.  Whatever the ball was doing, right after [restart] it sits on the
    left edge ([x = 0]) at a height within [0, SCREEN_HEIGHT], and both
    velocity components lie within [3, 5], hence are strictly positive.
    The raw draws of the generator are arbitrary values of [0, 1). *)
Theorem restart_postcondition (b : Ball.t) (s : Random.state)
    (Hs : Random.unit_draws s) :
  let b' := fst (Ball.restart b s) in
  x (Ball.center b') = 0 /\
  (0 <= y (Ball.center b') /\ y (Ball.center b') <= SCREEN_HEIGHT) /\
  (3 <= dx (Ball.velocity b') /\ dx (Ball.velocity b') <= 5) /\
  (3 <= dy (Ball.velocity b') /\ dy (Ball.velocity b') <= 5) /\
  0 < dx (Ball.velocity b') /\ 0 < dy (Ball.velocity b').
Proof.
  intros b'. destruct (restart_ranges b s Hs) as (Hx & Hy & Hdx & Hdy).
  fold b' in Hx, Hy, Hdx, Hdy.
  assert (H03 : 0 < 3) by reflexivity.
  repeat split; try tauto.
  - eapply Qlt_le_trans; [exact H03 | apply Hdx].
  - eapply Qlt_le_trans; [exact H03 | apply Hdy].
Qed.

(** A ball flying up and to the left, far outside the arena, restarted
    with the generator stuck at one half. *)
Lemma restart_postcondition_witness :
  let b := Ball.mk (mkPoint 405 (-20)) (mkVelocity (-4) (-3)) in
  let b' := fst (Ball.restart b (Random.constant 0.5)) in
  x (Ball.center b') = 0 /\
  (0 <= y (Ball.center b') /\ y (Ball.center b') <= SCREEN_HEIGHT) /\
  (3 <= dx (Ball.velocity b') /\ dx (Ball.velocity b') <= 5) /\
  (3 <= dy (Ball.velocity b') /\ dy (Ball.velocity b') <= 5) /\
  0 < dx (Ball.velocity b') /\ 0 < dy (Ball.velocity b').
Proof.
  exact (restart_postcondition
           (Ball.mk (mkPoint 405 (-20)) (mkVelocity (-4) (-3)))
           (Random.constant 0.5) unit_draws_constant).
Defined.

(** C6.  One [bounce_horizontal] negates the x-velocity and touches
    nothing else, one [bounce_vertical] does the same to the y-velocity,
    and either of them applied twice gives the ball back unchanged. *)
Theorem bounce_involution (b : Ball.t) :
  Ball.bounce_horizontal b =
    Ball.mk (Ball.center b)
            (mkVelocity (- dx (Ball.velocity b)) (dy (Ball.velocity b))) /\
  Ball.bounce_vertical b =
    Ball.mk (Ball.center b)
            (mkVelocity (dx (Ball.velocity b)) (- dy (Ball.velocity b))) /\
  Ball.bounce_horizontal (Ball.bounce_horizontal b) = b /\
  Ball.bounce_vertical (Ball.bounce_vertical b) = b.
Proof.
  destruct b as [c [vx vy]].
  unfold Ball.bounce_horizontal, Ball.bounce_vertical. simpl.
  rewrite !Qmult_m1_r, !Qopp_opp. repeat split.
Qed.

(** ** Frame facts: what each callback leaves alone *)

Ltac split_ifs :=
  repeat match goal with
         | |- context [if ?c then _ else _] => destruct c
         end.

Lemma check_keys_frame (g : Pong.t) :
  Pong.ball (Pong.check_keys g) = Pong.ball g /\
  Pong.score (Pong.check_keys g) = Pong.score g /\
  Pong.holding_left (Pong.check_keys g) = Pong.holding_left g /\
  Pong.holding_right (Pong.check_keys g) = Pong.holding_right g /\
  x (Paddle.center (Pong.paddle (Pong.check_keys g))) =
    x (Paddle.center (Pong.paddle g)).
Proof. unfold Pong.check_keys. split_ifs; repeat split. Qed.

Lemma check_hit_frame (g : Pong.t) :
  Pong.paddle (Pong.check_hit g) = Pong.paddle g /\
  Pong.holding_left (Pong.check_hit g) = Pong.holding_left g /\
  Pong.holding_right (Pong.check_hit g) = Pong.holding_right g /\
  Ball.center (Pong.ball (Pong.check_hit g)) = Ball.center (Pong.ball g) /\
  dy (Ball.velocity (Pong.ball (Pong.check_hit g))) =
    dy (Ball.velocity (Pong.ball g)).
Proof. unfold Pong.check_hit. split_ifs; repeat split. Qed.

Lemma check_bounce_frame (g : Pong.t) :
  Pong.paddle (Pong.check_bounce g) = Pong.paddle g /\
  Pong.score (Pong.check_bounce g) = Pong.score g /\
  Pong.holding_left (Pong.check_bounce g) = Pong.holding_left g /\
  Pong.holding_right (Pong.check_bounce g) = Pong.holding_right g /\
  Ball.center (Pong.ball (Pong.check_bounce g)) = Ball.center (Pong.ball g).
Proof.
  unfold Pong.check_bounce, Pong.bounce_bottom, Pong.bounce_top,
    Pong.bounce_left.
  split_ifs; repeat split.
Qed.

Lemma check_miss_frame (g : Pong.t) (s : Random.state) :
  Pong.paddle (fst (Pong.check_miss g s)) = Pong.paddle g /\
  Pong.holding_left (fst (Pong.check_miss g s)) = Pong.holding_left g /\
  Pong.holding_right (fst (Pong.check_miss g s)) = Pong.holding_right g /\
  Random.stream (snd (Pong.check_miss g s)) = Random.stream s.
Proof. unfold Pong.check_miss. split_ifs; repeat split. Qed.

(** The two outcomes of [check_miss]. *)
Lemma check_miss_taken (g : Pong.t) (s : Random.state) :
  SCREEN_WIDTH < x (Ball.center (Pong.ball g)) ->
  Pong.check_miss g s =
  (Pong.mk (fst (Ball.restart (Pong.ball g) s)) (Pong.paddle g)
           (if (5 <=? Pong.score g)%Z then Pong.score g - SCORE_MISS else 0)%Z
           (Pong.holding_left g) (Pong.holding_right g),
   snd (Ball.restart (Pong.ball g) s)).
Proof.
  intros H. apply Qltb_lt in H. unfold Pong.check_miss. rewrite H.
  rewrite Z.geb_leb. destruct (5 <=? Pong.score g)%Z; reflexivity.
Qed.

Lemma check_miss_skipped (g : Pong.t) (s : Random.state) :
  x (Ball.center (Pong.ball g)) <= SCREEN_WIDTH ->
  Pong.check_miss g s = (g, s).
Proof.
  intros H. apply Qltb_ge in H. unfold Pong.check_miss. rewrite H.
  reflexivity.
Qed.

Lemma check_miss_score_nonneg (g : Pong.t) (s : Random.state) :
  (0 <= Pong.score g)%Z -> (0 <= Pong.score (fst (Pong.check_miss g s)))%Z.
Proof.
  intros H0.
  destruct (Qlt_le_dec SCREEN_WIDTH (x (Ball.center (Pong.ball g)))) as [H|H].
  - rewrite check_miss_taken by exact H. simpl.
    destruct (5 <=? Pong.score g)%Z eqn:E; [|lia].
    apply Z.leb_le in E. unfold SCORE_MISS. lia.
  - rewrite check_miss_skipped by exact H. exact H0.
Qed.

Lemma check_hit_score (g : Pong.t) :
  Pong.score (Pong.check_hit g) = Pong.score g \/
  Pong.score (Pong.check_hit g) = (Pong.score g + 1)%Z.
Proof. unfold Pong.check_hit. split_ifs; [right | left]; reflexivity. Qed.

(** ** Invariants of the frame loop *)

Section RunInvariant.

Variable I : Pong.t -> Random.state -> Prop.

Hypothesis step_I :
  forall e g s, I g s -> I (fst (step e g s)) (snd (step e g s)).

Lemma run_invariant (es : list event) :
  forall g s, I g s -> I (fst (run es g s)) (snd (run es g s)).
Proof.
  induction es as [|e es IH]; intros g s H; simpl.
  - exact H.
  - unfold Random.bind. specialize (step_I e g s H).
    destruct (step e g s) as [g' s']. apply IH. exact step_I.
Qed.

End RunInvariant.

Lemma update_unfold (delta_time : Q) (g : Pong.t) (s : Random.state) :
  let g1 := Pong.check_keys (Pong.set_ball (Ball.advance (Pong.ball g)) g) in
  Pong.update delta_time g s =
  (Pong.check_bounce (Pong.check_hit (fst (Pong.check_miss g1 s))),
   snd (Pong.check_miss g1 s)).
Proof.
  cbv zeta. unfold Pong.update, Random.bind, Random.ret.
  destruct (Pong.check_miss _ s). reflexivity.
Qed.

Lemma on_key_press_frame (k : Key) (g : Pong.t) :
  Pong.ball (Pong.on_key_press k g) = Pong.ball g /\
  Pong.paddle (Pong.on_key_press k g) = Pong.paddle g /\
  Pong.score (Pong.on_key_press k g) = Pong.score g.
Proof. unfold Pong.on_key_press. split_ifs; repeat split. Qed.

Lemma on_key_release_frame (k : Key) (g : Pong.t) :
  Pong.ball (Pong.on_key_release k g) = Pong.ball g /\
  Pong.paddle (Pong.on_key_release k g) = Pong.paddle g /\
  Pong.score (Pong.on_key_release k g) = Pong.score g.
Proof. unfold Pong.on_key_release. split_ifs; repeat split. Qed.

Lemma step_score_nonneg (e : event) (g : Pong.t) (s : Random.state) :
  (0 <= Pong.score g)%Z -> (0 <= Pong.score (fst (step e g s)))%Z.
Proof.
  intros H. destruct e as [dt|k|k]; simpl.
  - rewrite update_unfold. cbv zeta. cbn [fst].
    destruct (check_bounce_frame
                (Pong.check_hit
                   (fst (Pong.check_miss
                           (Pong.check_keys
                              (Pong.set_ball (Ball.advance (Pong.ball g)) g))
                           s)))) as (_ & -> & _).
    match goal with
    | |- (0 <= Pong.score (Pong.check_hit ?h))%Z =>
        assert (0 <= Pong.score h)%Z as Hh;
        [| destruct (check_hit_score h) as [-> | ->]; lia]
    end.
    apply check_miss_score_nonneg.
    destruct (check_keys_frame
                (Pong.set_ball (Ball.advance (Pong.ball g)) g))
      as (_ & -> & _).
    exact H.
  - destruct (on_key_press_frame k g) as (_ & _ & ->). exact H.
  - destruct (on_key_release_frame k g) as (_ & _ & ->). exact H.
Qed.

Lemma run_score_nonneg (es : list event) (g : Pong.t) (s : Random.state) :
  (0 <= Pong.score g)%Z -> (0 <= Pong.score (fst (run es g s)))%Z.
Proof.
  apply (run_invariant (fun g _ => (0 <= Pong.score g)%Z)).
  intros e g0 s0. apply step_score_nonneg.
Qed.

(** ** Scoring *)

(** C2.  When the ball is beyond the right edge as [check_miss] runs, a
    score of 5 or more drops by exactly 5 and a smaller score becomes
    exactly 0; the ball is then restarted.  The score after the miss is not
    negative, and stays so through every later sequence of frames and key
    events, further misses included. *)
Theorem check_miss_scoring (g : Pong.t) (s : Random.state)
    (Hmiss : SCREEN_WIDTH < x (Ball.center (Pong.ball g))) :
  let g' := fst (Pong.check_miss g s) in
  ((5 <= Pong.score g)%Z -> Pong.score g' = (Pong.score g - 5)%Z) /\
  ((Pong.score g < 5)%Z -> Pong.score g' = 0%Z) /\
  (0 <= Pong.score g')%Z /\
  Pong.ball g' = fst (Ball.restart (Pong.ball g) s) /\
  forall es s', (0 <= Pong.score (fst (run es g' s')))%Z.
Proof.
  intros g'.
  assert (Hscore : Pong.score g' =
                   if (5 <=? Pong.score g)%Z then (Pong.score g - 5)%Z
                   else 0%Z).
  { unfold g'. rewrite check_miss_taken by exact Hmiss. reflexivity. }
  assert (Hnn : (0 <= Pong.score g')%Z).
  { rewrite Hscore. destruct (5 <=? Pong.score g)%Z eqn:E; [|lia].
    apply Z.leb_le in E. lia. }
  repeat split.
  - intros H5. rewrite Hscore. apply Z.leb_le in H5. rewrite H5. reflexivity.
  - intros H5. rewrite Hscore. apply Z.leb_gt in H5. rewrite H5. reflexivity.
  - exact Hnn.
  - unfold g'. rewrite check_miss_taken by exact Hmiss. reflexivity.
  - intros es s'. apply run_score_nonneg. exact Hnn.
Qed.

Lemma check_miss_scoring_witness :
  let g' := fst (Pong.check_miss miss_at_three (Random.constant 0.5)) in
  ((5 <= 3)%Z -> Pong.score g' = (3 - 5)%Z) /\
  ((3 < 5)%Z -> Pong.score g' = 0%Z) /\
  (0 <= Pong.score g')%Z /\
  Pong.ball g' =
    fst (Ball.restart (Pong.ball miss_at_three) (Random.constant 0.5)) /\
  forall es s', (0 <= Pong.score (fst (run es g' s')))%Z.
Proof.
  apply (check_miss_scoring miss_at_three (Random.constant 0.5)).
  reflexivity.
Defined.

Example miss_from_three :
  Pong.score (fst (Pong.check_miss miss_at_three (Random.constant 0.5)))
  = 0%Z.
Proof. reflexivity. Qed.

Example miss_from_seven :
  Pong.score (fst (Pong.check_miss (Pong.set_score 7 miss_at_three)
                     (Random.constant 0.5))) = 2%Z.
Proof. reflexivity. Qed.

Lemma check_hit_taken (g : Pong.t) :
  hit_condition g ->
  Pong.check_hit g =
  Pong.mk (Ball.bounce_horizontal (Pong.ball g)) (Pong.paddle g)
          (Pong.score g + SCORE_HIT)%Z
          (Pong.holding_left g) (Pong.holding_right g).
Proof.
  intros (Hx & Hy & Hd). apply Qltb_lt in Hx, Hy, Hd.
  unfold Pong.check_hit. cbv zeta. rewrite Hx, Hy, Hd. reflexivity.
Qed.

Lemma check_hit_skipped (g : Pong.t) :
  ~ hit_condition g -> Pong.check_hit g = g.
Proof.
  intros Hn. unfold Pong.check_hit. cbv zeta.
  match goal with
  | |- (if ?a && ?b && ?c then _ else _) = _ =>
      destruct a eqn:Ea; destruct b eqn:Eb; destruct c eqn:Ec;
      simpl; trivial
  end.
  exfalso. apply Hn. repeat split; apply Qltb_lt; assumption.
Qed.

(** C3.  When the ball overlaps the paddle on both axes and moves right,
    [check_hit] adds exactly 1 to the score and negates the x-velocity;
    the y-velocity, the position of the ball and the paddle are left as
    they were.  When the test fails, [check_hit] changes nothing. *)
Theorem check_hit_scoring (g : Pong.t) :
  (hit_condition g ->
     Pong.score (Pong.check_hit g) = (Pong.score g + 1)%Z /\
     dx (Ball.velocity (Pong.ball (Pong.check_hit g)))
       = - dx (Ball.velocity (Pong.ball g)) /\
     dy (Ball.velocity (Pong.ball (Pong.check_hit g)))
       = dy (Ball.velocity (Pong.ball g)) /\
     Ball.center (Pong.ball (Pong.check_hit g)) = Ball.center (Pong.ball g) /\
     Pong.paddle (Pong.check_hit g) = Pong.paddle g) /\
  (~ hit_condition g -> Pong.check_hit g = g).
Proof.
  split.
  - intros H. rewrite check_hit_taken by exact H. simpl.
    rewrite Qmult_m1_r. repeat split.
  - apply check_hit_skipped.
Qed.

Lemma hit_at_paddle_condition : hit_condition hit_at_paddle.
Proof. repeat split. Defined.

Lemma check_hit_scoring_witness :
  Pong.score (Pong.check_hit hit_at_paddle) = 7%Z /\
  dx (Ball.velocity (Pong.ball (Pong.check_hit hit_at_paddle))) = - (3) /\
  dy (Ball.velocity (Pong.ball (Pong.check_hit hit_at_paddle))) = 4 /\
  Ball.center (Pong.ball (Pong.check_hit hit_at_paddle)) = mkPoint 386 180 /\
  Pong.paddle (Pong.check_hit hit_at_paddle) = Paddle.init.
Proof.
  exact (proj1 (check_hit_scoring hit_at_paddle) hit_at_paddle_condition).
Defined.

(** ** Wall bounces *)

Lemma left_wall_iff (g : Pong.t) :
  Pong.left_wall g = true <->
  x (Ball.center (Pong.ball g)) - BALL_RADIUS < 0 /\
  dx (Ball.velocity (Pong.ball g)) < 0.
Proof.
  unfold Pong.left_wall. rewrite andb_true_iff, !Qltb_lt. reflexivity.
Qed.

Lemma top_wall_iff (g : Pong.t) :
  Pong.top_wall g = true <->
  y (Ball.center (Pong.ball g)) - BALL_RADIUS < 0 /\
  dy (Ball.velocity (Pong.ball g)) < 0.
Proof.
  unfold Pong.top_wall. rewrite andb_true_iff, !Qltb_lt. reflexivity.
Qed.

Lemma bottom_wall_iff (g : Pong.t) :
  Pong.bottom_wall g = true <->
  SCREEN_HEIGHT < y (Ball.center (Pong.ball g)) + BALL_RADIUS /\
  0 < dy (Ball.velocity (Pong.ball g)).
Proof.
  unfold Pong.bottom_wall. rewrite andb_true_iff, !Qltb_lt. reflexivity.
Qed.

Lemma not_true_false (b : bool) : ~ b = true -> b = false.
Proof. destruct b; congruence. Qed.

Section AfterBounce.

Variable g : Pong.t.

Let gh := Pong.set_ball (Ball.bounce_horizontal (Pong.ball g)) g.
Let gv := Pong.set_ball (Ball.bounce_vertical (Pong.ball g)) g.

Lemma horizontal_clears_left :
  Pong.left_wall g = true -> Pong.left_wall gh = false.
Proof.
  intros H. apply left_wall_iff in H. destruct H as [_ H].
  apply not_true_false. intros H'. apply left_wall_iff in H'.
  destruct H' as [_ H']. subst gh. simpl in H'.
  rewrite Qmult_m1_r in H'. lra.
Qed.

Lemma vertical_clears_top :
  Pong.top_wall g = true ->
  Pong.top_wall gv = false /\ Pong.bottom_wall gv = false.
Proof.
  intros H. apply top_wall_iff in H. destruct H as [Hy Hd].
  split; apply not_true_false; intros H';
    [apply top_wall_iff in H' | apply bottom_wall_iff in H'];
    destruct H' as [Hy' Hd']; subst gv; simpl in Hy', Hd';
    rewrite Qmult_m1_r in Hd'; unfold SCREEN_HEIGHT, BALL_RADIUS in *; lra.
Qed.

Lemma vertical_clears_bottom :
  Pong.bottom_wall g = true ->
  Pong.top_wall gv = false /\ Pong.bottom_wall gv = false.
Proof.
  intros H. apply bottom_wall_iff in H. destruct H as [Hy Hd].
  split; apply not_true_false; intros H';
    [apply top_wall_iff in H' | apply bottom_wall_iff in H'];
    destruct H' as [Hy' Hd']; subst gv; simpl in Hy', Hd';
    rewrite Qmult_m1_r in Hd'; unfold SCREEN_HEIGHT, BALL_RADIUS in *; lra.
Qed.

End AfterBounce.

(** Each wall test, run again on its own result, does nothing. *)
Lemma bounce_left_idem (g : Pong.t) :
  Pong.bounce_left (Pong.bounce_left g) = Pong.bounce_left g.
Proof.
  unfold Pong.bounce_left at 2 3. destruct (Pong.left_wall g) eqn:L.
  - unfold Pong.bounce_left. rewrite horizontal_clears_left by exact L.
    reflexivity.
  - unfold Pong.bounce_left. rewrite L. reflexivity.
Qed.

Lemma bounce_top_idem (g : Pong.t) :
  Pong.bounce_top (Pong.bounce_top g) = Pong.bounce_top g.
Proof.
  unfold Pong.bounce_top at 2 3. destruct (Pong.top_wall g) eqn:T.
  - unfold Pong.bounce_top.
    rewrite (proj1 (vertical_clears_top g T)). reflexivity.
  - unfold Pong.bounce_top. rewrite T. reflexivity.
Qed.

Lemma bounce_bottom_idem (g : Pong.t) :
  Pong.bounce_bottom (Pong.bounce_bottom g) = Pong.bounce_bottom g.
Proof.
  unfold Pong.bounce_bottom at 2 3. destruct (Pong.bottom_wall g) eqn:B.
  - unfold Pong.bounce_bottom.
    rewrite (proj2 (vertical_clears_bottom g B)). reflexivity.
  - unfold Pong.bounce_bottom. rewrite B. reflexivity.
Qed.

(** The tests as [check_bounce] meets them, in terms of the state it was
    called on. *)
Lemma top_after_left (g : Pong.t) :
  Pong.top_wall (Pong.bounce_left g) = Pong.top_wall g.
Proof. unfold Pong.bounce_left. destruct (Pong.left_wall g); reflexivity. Qed.

Lemma bottom_after_left (g : Pong.t) :
  Pong.bottom_wall (Pong.bounce_left g) = Pong.bottom_wall g.
Proof. unfold Pong.bounce_left. destruct (Pong.left_wall g); reflexivity. Qed.

Lemma left_after_top (g : Pong.t) :
  Pong.left_wall (Pong.bounce_top g) = Pong.left_wall g.
Proof. unfold Pong.bounce_top. destruct (Pong.top_wall g); reflexivity. Qed.

Lemma left_after_bottom (g : Pong.t) :
  Pong.left_wall (Pong.bounce_bottom g) = Pong.left_wall g.
Proof.
  unfold Pong.bounce_bottom. destruct (Pong.bottom_wall g); reflexivity.
Qed.

Lemma bottom_after_top (g : Pong.t) :
  Pong.bottom_wall (Pong.bounce_top g) =
  negb (Pong.top_wall g) && Pong.bottom_wall g.
Proof.
  unfold Pong.bounce_top. destruct (Pong.top_wall g) eqn:T; simpl.
  - apply (vertical_clears_top g T).
  - reflexivity.
Qed.

Lemma check_bounce_calls_eq (g : Pong.t) :
  check_bounce_calls g =
  (if Pong.left_wall g then [bounce_horizontal_call] else []) ++
  (if Pong.top_wall g then [bounce_vertical_call] else []) ++
  (if negb (Pong.top_wall g) && Pong.bottom_wall g
   then [bounce_vertical_call] else []).
Proof.
  unfold check_bounce_calls. cbv zeta.
  rewrite top_after_left, bottom_after_top, top_after_left,
    bottom_after_left.
  reflexivity.
Qed.

Lemma check_bounce_replay (g : Pong.t) :
  Pong.check_bounce g = fold_left do_call (check_bounce_calls g) g.
Proof.
  unfold Pong.check_bounce, check_bounce_calls. cbv zeta.
  set (g1 := Pong.bounce_left g). set (g2 := Pong.bounce_top g1).
  assert (E1 : g1 = fold_left do_call
                 (if Pong.left_wall g then [bounce_horizontal_call] else [])
                 g).
  { unfold g1, Pong.bounce_left. destruct (Pong.left_wall g); reflexivity. }
  assert (E2 : g2 = fold_left do_call
                 (if Pong.top_wall g1 then [bounce_vertical_call] else [])
                 g1).
  { unfold g2, Pong.bounce_top. destruct (Pong.top_wall g1); reflexivity. }
  rewrite !fold_left_app, <- E1, <- E2.
  unfold Pong.bounce_bottom. destruct (Pong.bottom_wall g2); reflexivity.
Qed.

Lemma check_bounce_settled (g : Pong.t) :
  Pong.left_wall (Pong.check_bounce g) = false /\
  Pong.top_wall (Pong.check_bounce g) = false /\
  Pong.bottom_wall (Pong.check_bounce g) = false.
Proof.
  unfold Pong.check_bounce. rewrite left_after_bottom, left_after_top.
  split.
  - unfold Pong.bounce_left. destruct (Pong.left_wall g) eqn:L.
    + apply horizontal_clears_left. exact L.
    + exact L.
  - set (g1 := Pong.bounce_left g).
    unfold Pong.bounce_bottom, Pong.bounce_top.
    destruct (Pong.top_wall g1) eqn:T.
    + destruct (vertical_clears_top g1 T) as [T' B']. rewrite B'.
      split; assumption.
    + destruct (Pong.bottom_wall g1) eqn:B.
      * apply vertical_clears_bottom. exact B.
      * split; assumption.
Qed.

Lemma check_bounce_idem (g : Pong.t) :
  Pong.check_bounce (Pong.check_bounce g) = Pong.check_bounce g.
Proof.
  destruct (check_bounce_settled g) as (L & T & B).
  set (g' := Pong.check_bounce g) in *.
  unfold Pong.check_bounce, Pong.bounce_left. rewrite L.
  unfold Pong.bounce_top. rewrite T.
  unfold Pong.bounce_bottom. rewrite B. reflexivity.
Qed.

(** C5.  [check_bounce] is the replay of the bounce calls it records.  It
    calls [bounce_horizontal] exactly when the ball overlaps the left wall
    while moving left, and [bounce_vertical] exactly when it overlaps the
    top wall while moving up or the bottom wall while moving down; no call
    is made twice in one pass, so no velocity component is flipped twice.
    Once a wall test has flipped the velocity, evaluating that test again
    (or the whole of [check_bounce] again) flips nothing. *)
Theorem wall_bounce_guard (g : Pong.t) :
  Pong.check_bounce g = fold_left do_call (check_bounce_calls g) g /\
  (In bounce_horizontal_call (check_bounce_calls g) <->
     x (Ball.center (Pong.ball g)) - BALL_RADIUS < 0 /\
     dx (Ball.velocity (Pong.ball g)) < 0) /\
  (In bounce_vertical_call (check_bounce_calls g) <->
     (y (Ball.center (Pong.ball g)) - BALL_RADIUS < 0 /\
      dy (Ball.velocity (Pong.ball g)) < 0) \/
     (SCREEN_HEIGHT < y (Ball.center (Pong.ball g)) + BALL_RADIUS /\
      0 < dy (Ball.velocity (Pong.ball g)))) /\
  NoDup (check_bounce_calls g) /\
  Pong.bounce_left (Pong.bounce_left g) = Pong.bounce_left g /\
  Pong.bounce_top (Pong.bounce_top g) = Pong.bounce_top g /\
  Pong.bounce_bottom (Pong.bounce_bottom g) = Pong.bounce_bottom g /\
  Pong.check_bounce (Pong.check_bounce g) = Pong.check_bounce g.
Proof.
  split; [apply check_bounce_replay|].
  rewrite check_bounce_calls_eq.
  rewrite <- left_wall_iff, <- top_wall_iff, <- bottom_wall_iff.
  split; [|split; [|split]].
  - destruct (Pong.left_wall g), (Pong.top_wall g), (Pong.bottom_wall g);
      simpl; intuition discriminate.
  - destruct (Pong.left_wall g), (Pong.top_wall g), (Pong.bottom_wall g);
      simpl; intuition discriminate.
  - destruct (Pong.left_wall g), (Pong.top_wall g), (Pong.bottom_wall g);
      simpl; repeat constructor; simpl; intuition discriminate.
  - repeat split;
      auto using bounce_left_idem, bounce_top_idem, bounce_bottom_idem,
        check_bounce_idem.
Qed.

(** The scenario of the specification: ball at (5, 150) moving (-2, 1). *)
Example left_wall_scenario :
  let g := Pong.mk (Ball.mk (mkPoint 5 150) (mkVelocity (-2) 1))
                   Paddle.init 0 false false in
  check_bounce_calls g = [bounce_horizontal_call] /\
  Ball.velocity (Pong.ball (Pong.check_bounce g)) = mkVelocity 2 1.
Proof. split; reflexivity. Qed.

(** ** Elapsed time *)

(** C7.  [update] never reads its elapsed-time argument: two calls that
    differ only in it end in the same game state and leave the generator
    in the same state.  The ball moves by its velocity, once, whatever the
    elapsed time. *)
Theorem update_ignores_delta_time (dt1 dt2 : Q) (g : Pong.t)
    (s : Random.state) :
  Pong.update dt1 g s = Pong.update dt2 g s /\
  Ball.center (Ball.advance (Pong.ball g)) =
    mkPoint (x (Ball.center (Pong.ball g)) + dx (Ball.velocity (Pong.ball g)))
            (y (Ball.center (Pong.ball g)) + dy (Ball.velocity (Pong.ball g))).
Proof. split; reflexivity. Qed.

(** ** The speed of the ball *)

Lemma speed_ok_nonzero (b : Ball.t) :
  speed_ok b ->
  ~ dx (Ball.velocity b) == 0 /\ ~ dy (Ball.velocity b) == 0.
Proof.
  intros [[Hx _] [Hy _]].
  split; intros E; rewrite E in *; simpl in *; lra.
Qed.

Lemma speed_ok_advance (b : Ball.t) : speed_ok b -> speed_ok (Ball.advance b).
Proof. exact (fun H => H). Qed.

Lemma speed_ok_bounce_horizontal (b : Ball.t) :
  speed_ok b -> speed_ok (Ball.bounce_horizontal b).
Proof.
  unfold speed_ok, Ball.bounce_horizontal. cbn [Ball.velocity dx dy].
  rewrite Qabs_flip. exact (fun H => H).
Qed.

Lemma speed_ok_bounce_vertical (b : Ball.t) :
  speed_ok b -> speed_ok (Ball.bounce_vertical b).
Proof.
  unfold speed_ok, Ball.bounce_vertical. cbn [Ball.velocity dx dy].
  rewrite Qabs_flip. exact (fun H => H).
Qed.

Lemma speed_ok_restart (b : Ball.t) (s : Random.state) :
  Random.unit_draws s -> speed_ok (fst (Ball.restart b s)).
Proof.
  intros Hs. destruct (restart_ranges b s Hs) as (_ & _ & Hdx & Hdy).
  cbv zeta in Hdx, Hdy. unfold speed_ok.
  rewrite !Qabs_pos by lra. split; assumption.
Qed.

Lemma speed_ok_check_miss (g : Pong.t) (s : Random.state) :
  Random.unit_draws s -> speed_ok (Pong.ball g) ->
  speed_ok (Pong.ball (fst (Pong.check_miss g s))).
Proof.
  intros Hs Hg.
  destruct (Qlt_le_dec SCREEN_WIDTH (x (Ball.center (Pong.ball g)))) as [H|H].
  - rewrite check_miss_taken by exact H. cbn [fst Pong.ball].
    apply speed_ok_restart. exact Hs.
  - rewrite check_miss_skipped by exact H. exact Hg.
Qed.

Lemma speed_ok_check_hit (g : Pong.t) :
  speed_ok (Pong.ball g) -> speed_ok (Pong.ball (Pong.check_hit g)).
Proof.
  intros Hg. unfold Pong.check_hit. cbv zeta. split_ifs; simpl; trivial.
  apply speed_ok_bounce_horizontal. exact Hg.
Qed.

Lemma speed_ok_do_call (g : Pong.t) (c : bounce_call) :
  speed_ok (Pong.ball g) -> speed_ok (Pong.ball (do_call g c)).
Proof.
  intros Hg. destruct c; simpl;
    [apply speed_ok_bounce_horizontal | apply speed_ok_bounce_vertical];
    exact Hg.
Qed.

Lemma speed_ok_check_bounce (g : Pong.t) :
  speed_ok (Pong.ball g) -> speed_ok (Pong.ball (Pong.check_bounce g)).
Proof.
  rewrite check_bounce_replay. generalize (check_bounce_calls g).
  intros cs. revert g. induction cs as [|c cs IH]; intros g Hg; simpl.
  - exact Hg.
  - apply IH. apply speed_ok_do_call. exact Hg.
Qed.

Lemma update_stream (dt : Q) (g : Pong.t) (s : Random.state) :
  Random.stream (snd (Pong.update dt g s)) = Random.stream s.
Proof. rewrite update_unfold. cbv zeta. apply check_miss_frame. Qed.

Lemma step_speed_ok (e : event) (g : Pong.t) (s : Random.state) :
  Random.unit_draws s /\ speed_ok (Pong.ball g) ->
  Random.unit_draws (snd (step e g s)) /\
  speed_ok (Pong.ball (fst (step e g s))).
Proof.
  intros [Hs Hg]. destruct e as [dt|k|k]; simpl.
  - split.
    + eapply unit_draws_stream; [apply update_stream | exact Hs].
    + rewrite update_unfold. cbv zeta. cbn [fst].
      apply speed_ok_check_bounce, speed_ok_check_hit, speed_ok_check_miss;
        [exact Hs|].
      destruct (check_keys_frame
                  (Pong.set_ball (Ball.advance (Pong.ball g)) g))
        as (-> & _).
      apply speed_ok_advance. exact Hg.
  - split; [exact Hs|].
    destruct (on_key_press_frame k g) as (-> & _). exact Hg.
  - split; [exact Hs|].
    destruct (on_key_release_frame k g) as (-> & _). exact Hg.
Qed.

Lemma play_unfold (es : list event) (s : Random.state) :
  play es s =
  run es (fst (Pong.init SCREEN_WIDTH SCREEN_HEIGHT s))
         (snd (Pong.init SCREEN_WIDTH SCREEN_HEIGHT s)).
Proof. reflexivity. Qed.

Lemma init_speed_ok (s : Random.state) :
  Random.unit_draws s ->
  Random.unit_draws (snd (Pong.init SCREEN_WIDTH SCREEN_HEIGHT s)) /\
  speed_ok (Pong.ball (fst (Pong.init SCREEN_WIDTH SCREEN_HEIGHT s))).
Proof.
  intros Hs. split.
  - eapply unit_draws_stream; [|exact Hs]. reflexivity.
  - exact (speed_ok_restart (Ball.mk Point_init Velocity_init) s Hs).
Qed.

Lemma reachable_speed_ok (g : Pong.t) :
  reachable g -> speed_ok (Pong.ball g).
Proof.
  intros (s & es & Hs & <-). rewrite play_unfold.
  apply (run_invariant
           (fun g s => Random.unit_draws s /\ speed_ok (Pong.ball g))).
  - intros e g0 s0. apply step_speed_ok.
  - apply init_speed_ok. exact Hs.
Qed.

(** C8.  In every state the program reaches, neither velocity component
    of the ball is zero: each has magnitude between 3 and 5, as drawn at
    initialisation and at every restart and as kept by [advance] and by the
    two bounces. *)
Theorem velocity_never_zero (g : Pong.t) (Hg : reachable g) :
  ~ dx (Ball.velocity (Pong.ball g)) == 0 /\
  ~ dy (Ball.velocity (Pong.ball g)) == 0 /\
  speed_ok (Pong.ball g).
Proof.
  pose proof (reachable_speed_ok g Hg) as H.
  destruct (speed_ok_nonzero _ H) as [Hx Hy].
  split; [exact Hx | split; [exact Hy | exact H]].
Qed.

Lemma three_frames_reachable :
  reachable (fst (play three_frames (Random.constant 0.5))).
Proof.
  exists (Random.constant 0.5), three_frames.
  split; [exact unit_draws_constant | reflexivity].
Defined.

Lemma velocity_never_zero_witness :
  let g := fst (play three_frames (Random.constant 0.5)) in
  ~ dx (Ball.velocity (Pong.ball g)) == 0 /\
  ~ dy (Ball.velocity (Pong.ball g)) == 0 /\
  speed_ok (Pong.ball g).
Proof.
  exact (velocity_never_zero _ three_frames_reachable).
Defined.

(** ** The paddle *)

Lemma paddle_band_init : paddle_band Paddle.init.
Proof. split; discriminate. Qed.

Lemma move_down_band (p : Paddle.t) :
  paddle_band p -> 0 <= y (Paddle.center p) - PADDLE_HEIGHT * 0.5 ->
  paddle_band (Paddle.move_down p).
Proof.
  unfold paddle_band, Paddle.move_down. cbn [Paddle.center y].
  intros [Hlo Hhi] H. split; game_lra.
Qed.

Lemma move_up_band (p : Paddle.t) :
  paddle_band p -> y (Paddle.center p) + PADDLE_HEIGHT * 0.5 < SCREEN_HEIGHT ->
  paddle_band (Paddle.move_up p).
Proof.
  unfold paddle_band, Paddle.move_up. cbn [Paddle.center y].
  intros [Hlo Hhi] H. split; game_lra.
Qed.

Lemma paddle_band_check_keys (g : Pong.t) :
  paddle_band (Pong.paddle g) -> paddle_band (Pong.paddle (Pong.check_keys g)).
Proof.
  intros H. unfold Pong.check_keys. cbv zeta.
  match goal with
  | |- context [if Pong.holding_right ?h && _ then _ else _] =>
      set (g1 := h); assert (H1 : paddle_band (Pong.paddle g1))
  end.
  { unfold g1. destruct (Pong.holding_left g && _) eqn:E; [|exact H].
    apply andb_true_iff in E. destruct E as [_ E].
    apply Qle_bool_iff in E. apply move_down_band; assumption. }
  destruct (Pong.holding_right g1 && _) eqn:E; [|exact H1].
  apply andb_true_iff in E. destruct E as [_ E].
  apply Qltb_lt in E. apply move_up_band; assumption.
Qed.

Lemma update_paddle (dt : Q) (g : Pong.t) (s : Random.state) :
  Pong.paddle (fst (Pong.update dt g s)) =
  Pong.paddle
    (Pong.check_keys (Pong.set_ball (Ball.advance (Pong.ball g)) g)).
Proof.
  rewrite update_unfold. cbv zeta. cbn [fst].
  destruct (check_bounce_frame
              (Pong.check_hit
                 (fst (Pong.check_miss
                         (Pong.check_keys
                            (Pong.set_ball (Ball.advance (Pong.ball g)) g))
                         s)))) as (-> & _).
  destruct (check_hit_frame
              (fst (Pong.check_miss
                      (Pong.check_keys
                         (Pong.set_ball (Ball.advance (Pong.ball g)) g))
                      s))) as (-> & _).
  apply check_miss_frame.
Qed.

Lemma step_paddle_band (e : event) (g : Pong.t) (s : Random.state) :
  paddle_band (Pong.paddle g) -> paddle_band (Pong.paddle (fst (step e g s))).
Proof.
  intros H. destruct e as [dt|k|k]; simpl.
  - rewrite update_paddle.
    apply (paddle_band_check_keys
             (Pong.set_ball (Ball.advance (Pong.ball g)) g)).
    exact H.
  - destruct (on_key_press_frame k g) as (_ & -> & _). exact H.
  - destruct (on_key_release_frame k g) as (_ & -> & _). exact H.
Qed.

(** C9.  From the initial position and through every sequence of frames
    and key events, whatever the generator draws, the paddle centre stays
    within [PADDLE_HEIGHT/2 - MOVE_AMOUNT, SCREEN_HEIGHT - PADDLE_HEIGHT/2 +
    MOVE_AMOUNT], that is within [20, 280]. *)
Theorem paddle_overshoot_bound (es : list event) (s : Random.state) :
  let py := y (Paddle.center (Pong.paddle (fst (play es s)))) in
  paddle_band (Pong.paddle (fst (play es s))) /\ 20 <= py /\ py <= 280.
Proof.
  intros py.
  assert (H : paddle_band (Pong.paddle (fst (play es s)))).
  { rewrite play_unfold.
    apply (run_invariant (fun g _ => paddle_band (Pong.paddle g))).
    - intros e g s0. apply step_paddle_band.
    - exact paddle_band_init. }
  split; [exact H|]. destruct H as [Hlo Hhi]. fold py in Hlo, Hhi.
  split; game_lra.
Qed.

(** The paddle never moves sideways. *)
Lemma step_paddle_x (e : event) (g : Pong.t) (s : Random.state) :
  x (Paddle.center (Pong.paddle (fst (step e g s)))) =
  x (Paddle.center (Pong.paddle g)).
Proof.
  destruct e as [dt|k|k]; simpl.
  - rewrite update_paddle.
    apply (check_keys_frame (Pong.set_ball (Ball.advance (Pong.ball g)) g)).
  - destruct (on_key_press_frame k g) as (_ & -> & _). reflexivity.
  - destruct (on_key_release_frame k g) as (_ & -> & _). reflexivity.
Qed.

Lemma reachable_paddle_x (g : Pong.t) :
  reachable g ->
  x (Paddle.center (Pong.paddle g)) == SCREEN_WIDTH - PADDLE_WIDTH.
Proof.
  intros (s & es & _ & <-). rewrite play_unfold.
  apply (run_invariant
           (fun g _ => x (Paddle.center (Pong.paddle g))
                       == SCREEN_WIDTH - PADDLE_WIDTH)).
  - intros e g0 s0 H. rewrite step_paddle_x. exact H.
  - reflexivity.
Qed.

(** ** A miss and a hit in the same frame *)

(** C10.  With the paddle in its column ([x = SCREEN_WIDTH - PADDLE_WIDTH],
    as in every reachable state), a frame in which the ball is beyond the
    right edge when [check_miss] runs awards no hit: [check_miss] has put
    the ball back at [x = 0], the test of [check_hit] fails there and
    [check_hit] changes nothing, so the velocity it leaves is the one
    [restart] drew and the score after the frame is the score before it
    with the miss penalty applied. *)
Theorem miss_excludes_hit (dt : Q) (g : Pong.t) (s : Random.state)
    (Hpad : x (Paddle.center (Pong.paddle g)) == SCREEN_WIDTH - PADDLE_WIDTH)
    (Hmiss : SCREEN_WIDTH <
             x (Ball.center
                  (Pong.ball
                     (Pong.check_keys
                        (Pong.set_ball (Ball.advance (Pong.ball g)) g))))) :
  let g1 := Pong.check_keys (Pong.set_ball (Ball.advance (Pong.ball g)) g) in
  let g2 := fst (Pong.check_miss g1 s) in
  x (Ball.center (Pong.ball g2)) = 0 /\
  ~ hit_condition g2 /\
  Pong.check_hit g2 = g2 /\
  Ball.velocity (Pong.ball (Pong.check_hit g2)) =
    Ball.velocity (fst (Ball.restart (Pong.ball g1) s)) /\
  Pong.score (fst (Pong.update dt g s)) =
    (if (5 <=? Pong.score g)%Z then Pong.score g - 5 else 0)%Z.
Proof.
  intros g1 g2.
  assert (E2 : g2 =
               Pong.mk (fst (Ball.restart (Pong.ball g1) s)) (Pong.paddle g1)
                 (if (5 <=? Pong.score g1)%Z
                  then Pong.score g1 - SCORE_MISS else 0)%Z
                 (Pong.holding_left g1) (Pong.holding_right g1)).
  { unfold g2. rewrite check_miss_taken by exact Hmiss. reflexivity. }
  assert (Hx : x (Ball.center (Pong.ball g2)) = 0).
  { rewrite E2. reflexivity. }
  assert (Hno : ~ hit_condition g2).
  { intros (Hclose & _). rewrite Hx in Hclose.
    assert (Hp : x (Paddle.center (Pong.paddle g2))
                 == SCREEN_WIDTH - PADDLE_WIDTH).
    { rewrite E2. cbn [Pong.paddle]. unfold g1.
      destruct (check_keys_frame
                  (Pong.set_ball (Ball.advance (Pong.ball g)) g))
        as (_ & _ & _ & _ & ->).
      exact Hpad. }
    rewrite Hp in Hclose. vm_compute in Hclose. discriminate. }
  assert (Hsame : Pong.check_hit g2 = g2) by (apply check_hit_skipped; exact Hno).
  repeat split; trivial.
  - rewrite Hsame, E2. reflexivity.
  - rewrite update_unfold. cbv zeta. cbn [fst]. fold g1. fold g2.
    rewrite Hsame.
    destruct (check_bounce_frame g2) as (_ & -> & _).
    rewrite E2. cbn [Pong.score]. unfold g1.
    destruct (check_keys_frame
                (Pong.set_ball (Ball.advance (Pong.ball g)) g))
      as (_ & -> & _).
    reflexivity.
Qed.

Lemma hundred_frames_reachable :
  reachable (fst (play hundred_frames (Random.constant 0.5))).
Proof.
  exists (Random.constant 0.5), hundred_frames.
  split; [exact unit_draws_constant | reflexivity].
Defined.

Lemma miss_excludes_hit_witness :
  let g := fst (play hundred_frames (Random.constant 0.5)) in
  let s := snd (play hundred_frames (Random.constant 0.5)) in
  let g1 := Pong.check_keys (Pong.set_ball (Ball.advance (Pong.ball g)) g) in
  let g2 := fst (Pong.check_miss g1 s) in
  x (Ball.center (Pong.ball g2)) = 0 /\
  ~ hit_condition g2 /\
  Pong.check_hit g2 = g2 /\
  Ball.velocity (Pong.ball (Pong.check_hit g2)) =
    Ball.velocity (fst (Ball.restart (Pong.ball g1) s)) /\
  Pong.score (fst (Pong.update 0.016 g s)) =
    (if (5 <=? Pong.score g)%Z then Pong.score g - 5 else 0)%Z.
Proof.
  refine (miss_excludes_hit 0.016
            (fst (play hundred_frames (Random.constant 0.5)))
            (snd (play hundred_frames (Random.constant 0.5)))
            (reachable_paddle_x _ hundred_frames_reachable) _).
  vm_compute. reflexivity.
Defined.

(** ** The paddle at the lower edge *)

(** C1.  The lower guard of [check_keys] tests the position before the
    move.  Twenty-five frames with the left arrow held bring the paddle
    centre from 150 to 25, where its lower edge touches the edge of the
    screen; the guard [25 - 25 >= 0] still passes, and the next
    [check_keys] moves the centre to 20, five units out of the screen. *)
Theorem check_keys_leaves_screen :
  let g := fst (play (KeyPress LEFT :: repeat (Update 0.016) 25)
                  (Random.constant 0.5)) in
  let g' := Pong.check_keys g in
  reachable g /\
  Pong.holding_left g = true /\
  y (Paddle.center (Pong.paddle g)) == 25 /\
  y (Paddle.center (Pong.paddle g')) == 20 /\
  ~ (y (Paddle.center (Pong.paddle g')) - PADDLE_HEIGHT / 2 >= 0).
Proof.
  intros g g'. split; [|split; [|split; [|split]]].
  - exists (Random.constant 0.5),
      (KeyPress LEFT :: repeat (Update 0.016) 25).
    split; [exact unit_draws_constant | reflexivity].
  - vm_compute. reflexivity.
  - vm_compute. reflexivity.
  - vm_compute. reflexivity.
  - vm_compute. intros H. apply H. reflexivity.
Qed.

(** * Further properties of the callbacks *)

(** ** Key callbacks *)

(** X1.  Releasing a key undoes its press and pressing it undoes its
    release: [on_key_release] after [on_key_press] of the same key is the
    release alone, and the other way round.  From a state with no key held,
    a press followed by the release of the same key gives the state back. *)
Theorem key_press_release (key : Key) (g : Pong.t) :
  Pong.on_key_release key (Pong.on_key_press key g)
    = Pong.on_key_release key g /\
  Pong.on_key_press key (Pong.on_key_release key g)
    = Pong.on_key_press key g /\
  (Pong.holding_left g = false -> Pong.holding_right g = false ->
   Pong.on_key_release key (Pong.on_key_press key g) = g).
Proof.
  destruct g as [b p n hl hr].
  repeat split.
  - destruct key; reflexivity.
  - destruct key; reflexivity.
  - simpl. intros -> ->. destruct key; reflexivity.
Qed.

Lemma key_press_release_witness :
  Pong.on_key_release LEFT (Pong.on_key_press LEFT idle_game) = idle_game.
Proof.
  exact (proj2 (proj2 (key_press_release LEFT idle_game)) eq_refl eq_refl).
Defined.

(** X2.  The hold flags do not count keys.  With LEFT and DOWN both
    pressed, releasing either one clears [holding_left] although the other
    is still down; likewise for RIGHT and UP and [holding_right]. *)
Theorem release_is_not_counted (g : Pong.t) :
  Pong.holding_left
    (Pong.on_key_release DOWN
       (Pong.on_key_press DOWN (Pong.on_key_press LEFT g))) = false /\
  Pong.holding_left
    (Pong.on_key_release LEFT
       (Pong.on_key_press DOWN (Pong.on_key_press LEFT g))) = false /\
  Pong.holding_right
    (Pong.on_key_release UP
       (Pong.on_key_press UP (Pong.on_key_press RIGHT g))) = false /\
  Pong.holding_right
    (Pong.on_key_release RIGHT
       (Pong.on_key_press UP (Pong.on_key_press RIGHT g))) = false.
Proof. repeat split. Qed.

Lemma key_step_frame (e : event) (g : Pong.t) (s : Random.state) :
  is_key_event e = true ->
  snd (step e g s) = s /\
  Pong.ball (fst (step e g s)) = Pong.ball g /\
  Pong.paddle (fst (step e g s)) = Pong.paddle g /\
  Pong.score (fst (step e g s)) = Pong.score g.
Proof.
  destruct e as [dt|k|k]; simpl; intros H; try discriminate.
  - destruct (on_key_press_frame k g) as (-> & -> & ->). repeat split.
  - destruct (on_key_release_frame k g) as (-> & -> & ->). repeat split.
Qed.

(** X3.  Between two frames nothing moves: a run of key callbacks alone
    leaves the ball, the paddle and the score as they were and draws
    nothing from the generator. *)
Theorem keys_alone_move_nothing (es : list event) (g : Pong.t)
    (s : Random.state) (Hkeys : forallb is_key_event es = true) :
  snd (run es g s) = s /\
  Pong.ball (fst (run es g s)) = Pong.ball g /\
  Pong.paddle (fst (run es g s)) = Pong.paddle g /\
  Pong.score (fst (run es g s)) = Pong.score g.
Proof.
  revert g Hkeys. induction es as [|e es IH]; intros g Hkeys.
  - repeat split.
  - simpl in Hkeys. apply andb_true_iff in Hkeys. destruct Hkeys as [He Hes].
    destruct (key_step_frame e g s He) as (Es & Eb & Ep & En).
    simpl. unfold Random.bind.
    destruct (step e g s) as [g' s']. simpl in Es, Eb, Ep, En. subst s'.
    rewrite <- Eb, <- Ep, <- En. apply IH. exact Hes.
Qed.

Lemma keys_alone_move_nothing_witness :
  snd (run some_keys idle_game (Random.constant 0.5)) = Random.constant 0.5 /\
  Pong.ball (fst (run some_keys idle_game (Random.constant 0.5)))
    = Pong.ball idle_game /\
  Pong.paddle (fst (run some_keys idle_game (Random.constant 0.5)))
    = Pong.paddle idle_game /\
  Pong.score (fst (run some_keys idle_game (Random.constant 0.5)))
    = Pong.score idle_game.
Proof.
  apply (keys_alone_move_nothing some_keys idle_game (Random.constant 0.5)).
  reflexivity.
Defined.

(** ** The paddle, frame by frame *)

Lemma inject_Z_pred (k : Z) : inject_Z (k - 1) == inject_Z k - 1.
Proof.
  unfold Z.sub. rewrite inject_Z_plus, inject_Z_opp. reflexivity.
Qed.

Lemma inject_Z_succ (k : Z) : inject_Z (k + 1) == inject_Z k + 1.
Proof. rewrite inject_Z_plus. reflexivity. Qed.

Lemma paddle_on_grid_init : paddle_on_grid Paddle.init.
Proof. exists 30%Z. split; [reflexivity | lia]. Qed.

Lemma move_down_grid (p : Paddle.t) :
  paddle_on_grid p -> 0 <= y (Paddle.center p) - PADDLE_HEIGHT * 0.5 ->
  paddle_on_grid (Paddle.move_down p).
Proof.
  intros (k & Hk & Hlo & Hhi) H. exists (k - 1)%Z.
  unfold Paddle.move_down. cbn [Paddle.center y].
  rewrite inject_Z_pred. split; [rewrite Hk; ring|].
  assert (H5 : inject_Z 5 <= inject_Z k).
  { rewrite Hk in H. change (inject_Z 5) with 5.
    unfold PADDLE_HEIGHT in H. lra. }
  rewrite <- Zle_Qle in H5. lia.
Qed.

Lemma move_up_grid (p : Paddle.t) :
  paddle_on_grid p -> y (Paddle.center p) + PADDLE_HEIGHT * 0.5 < SCREEN_HEIGHT ->
  paddle_on_grid (Paddle.move_up p).
Proof.
  intros (k & Hk & Hlo & Hhi) H. exists (k + 1)%Z.
  unfold Paddle.move_up. cbn [Paddle.center y].
  rewrite inject_Z_succ. split; [rewrite Hk; ring|].
  assert (H55 : inject_Z k < inject_Z 55).
  { rewrite Hk in H. change (inject_Z 55) with 55.
    unfold PADDLE_HEIGHT, SCREEN_HEIGHT in H. lra. }
  rewrite <- Zlt_Qlt in H55. lia.
Qed.

Lemma check_keys_grid (g : Pong.t) :
  paddle_on_grid (Pong.paddle g) ->
  paddle_on_grid (Pong.paddle (Pong.check_keys g)).
Proof.
  intros H. unfold Pong.check_keys. cbv zeta.
  match goal with
  | |- context [if Pong.holding_right ?h && _ then _ else _] =>
      set (g1 := h); assert (H1 : paddle_on_grid (Pong.paddle g1))
  end.
  { unfold g1. destruct (Pong.holding_left g && _) eqn:E; [|exact H].
    apply andb_true_iff in E. destruct E as [_ E].
    apply Qle_bool_iff in E. apply move_down_grid; assumption. }
  destruct (Pong.holding_right g1 && _) eqn:E; [|exact H1].
  apply andb_true_iff in E. destruct E as [_ E].
  apply Qltb_lt in E. apply move_up_grid; assumption.
Qed.

Lemma step_paddle_grid (e : event) (g : Pong.t) (s : Random.state) :
  paddle_on_grid (Pong.paddle g) ->
  paddle_on_grid (Pong.paddle (fst (step e g s))).
Proof.
  intros H. destruct e as [dt|k|k]; simpl.
  - rewrite update_paddle.
    apply (check_keys_grid (Pong.set_ball (Ball.advance (Pong.ball g)) g)).
    exact H.
  - destruct (on_key_press_frame k g) as (_ & -> & _). exact H.
  - destruct (on_key_release_frame k g) as (_ & -> & _). exact H.
Qed.

(** X4.  In every state the program reaches, the paddle centre is a
    multiple of 5 between 20 and 275: the paddle never crosses the upper
    edge ([y + PADDLE_HEIGHT/2 <= SCREEN_HEIGHT]), and at the lower edge it
    goes out by one move at most. *)
Theorem paddle_keeps_upper_edge (g : Pong.t) (Hg : reachable g) :
  paddle_on_grid (Pong.paddle g) /\
  y (Paddle.center (Pong.paddle g)) + PADDLE_HEIGHT / 2 <= SCREEN_HEIGHT /\
  - MOVE_AMOUNT <= y (Paddle.center (Pong.paddle g)) - PADDLE_HEIGHT / 2.
Proof.
  assert (H : paddle_on_grid (Pong.paddle g)).
  { destruct Hg as (s & es & _ & <-). rewrite play_unfold.
    apply (run_invariant (fun g _ => paddle_on_grid (Pong.paddle g))).
    - intros e g0 s0. apply step_paddle_grid.
    - exact paddle_on_grid_init. }
  split; [exact H|]. destruct H as (k & Hk & Hlo & Hhi).
  rewrite Zle_Qle in Hlo, Hhi.
  change (inject_Z 4) with 4 in Hlo. change (inject_Z 55) with 55 in Hhi.
  rewrite Hk. split; game_lra.
Qed.

Lemma paddle_keeps_upper_edge_witness :
  let g := fst (play three_frames (Random.constant 0.5)) in
  paddle_on_grid (Pong.paddle g) /\
  y (Paddle.center (Pong.paddle g)) + PADDLE_HEIGHT / 2 <= SCREEN_HEIGHT /\
  - MOVE_AMOUNT <= y (Paddle.center (Pong.paddle g)) - PADDLE_HEIGHT / 2.
Proof.
  exact (paddle_keeps_upper_edge _ three_frames_reachable).
Defined.

(** X5.  One frame moves the paddle by one step at most: after [update]
    the paddle is in the same column, and its height is the old one, the
    old one minus 5 or the old one plus 5.  With no key held the paddle is
    left exactly as it was. *)
Theorem paddle_moves_one_step (dt : Q) (g : Pong.t) (s : Random.state) :
  let p := Pong.paddle g in
  let p' := Pong.paddle (fst (Pong.update dt g s)) in
  x (Paddle.center p') = x (Paddle.center p) /\
  (y (Paddle.center p') == y (Paddle.center p) - 5 \/
   y (Paddle.center p') == y (Paddle.center p) \/
   y (Paddle.center p') == y (Paddle.center p) + 5) /\
  (Pong.holding_left g = false -> Pong.holding_right g = false -> p' = p).
Proof.
  cbv zeta. rewrite update_paddle.
  set (g0 := Pong.set_ball (Ball.advance (Pong.ball g)) g).
  change (Pong.paddle g) with (Pong.paddle g0).
  change (Pong.holding_left g) with (Pong.holding_left g0).
  change (Pong.holding_right g) with (Pong.holding_right g0).
  generalize g0. clear g0. intros g0.
  split; [apply check_keys_frame|]. split.
  - unfold Pong.check_keys. cbv zeta.
    destruct (Pong.holding_left g0 && _); cbn [Pong.holding_right];
      match goal with
      | |- context [if ?c then _ else _] => destruct c
      end; simpl; [right; left; ring | left | right; right | right; left];
      reflexivity.
  - intros Hl Hr. unfold Pong.check_keys. cbv zeta.
    rewrite Hl. cbn [andb]. rewrite Hr. reflexivity.
Qed.

Lemma paddle_moves_one_step_witness :
  Pong.paddle (fst (Pong.update 0.016 idle_game (Random.constant 0.5)))
  = Pong.paddle idle_game.
Proof.
  exact (proj2 (proj2 (paddle_moves_one_step 0.016 idle_game
                         (Random.constant 0.5)))
           eq_refl eq_refl).
Defined.

(** ** The ball stays in the arena *)

(** The ball [check_bounce] leaves, in one formula. *)
Lemma check_bounce_ball (g : Pong.t) :
  Pong.ball (Pong.check_bounce g) =
  Ball.mk (Ball.center (Pong.ball g))
    (mkVelocity
       (if Pong.left_wall g then - dx (Ball.velocity (Pong.ball g))
        else dx (Ball.velocity (Pong.ball g)))
       (if Pong.top_wall g || Pong.bottom_wall g
        then - dy (Ball.velocity (Pong.ball g))
        else dy (Ball.velocity (Pong.ball g)))).
Proof.
  unfold Pong.check_bounce, Pong.bounce_bottom.
  rewrite bottom_after_top, top_after_left, bottom_after_left.
  unfold Pong.bounce_top. rewrite top_after_left.
  unfold Pong.bounce_left.
  destruct g as [[c [vx vy]] p n hl hr].
  destruct (Pong.left_wall _), (Pong.top_wall _), (Pong.bottom_wall _);
    unfold Ball.bounce_vertical, Ball.bounce_horizontal;
    cbn [Pong.ball Pong.set_ball Ball.center Ball.velocity dx dy negb andb
         orb];
    rewrite ?Qmult_m1_r; reflexivity.
Qed.

Lemma speed_ok_signs (b : Ball.t) :
  speed_ok b ->
  (3 <= dx (Ball.velocity b) <= 5 \/ -(5) <= dx (Ball.velocity b) <= -(3)) /\
  (3 <= dy (Ball.velocity b) <= 5 \/ -(5) <= dy (Ball.velocity b) <= -(3)).
Proof.
  intros [[Hx1 Hx2] [Hy1 Hy2]].
  revert Hx1 Hx2 Hy1 Hy2.
  apply (Qabs_case (dx (Ball.velocity b))); intros Hsx;
    apply (Qabs_case (dy (Ball.velocity b))); intros Hsy; intros;
    split; (left; lra) || (right; lra).
Qed.

(** Use the sign-guarded facts whose guard holds, drop the others. *)
Ltac use_signs :=
  repeat match goal with
         | H : _ < _ -> _ |- _ =>
             first [ specialize (H ltac:(lra)) | clear H ]
         end.

(** The four sign-guarded bounds of [ball_in_arena] and [ball_in_flight],
    one goal for each bound. *)
Ltac four_bounds :=
  split; [|split; [|split]]; intros Hsign; split.

Lemma advance_in_flight (b : Ball.t) :
  speed_ok b -> ball_in_arena b ->
  x (Ball.center (Ball.advance b)) <= SCREEN_WIDTH ->
  ball_in_flight (Ball.advance b).
Proof.
  intros Hs (Hxp & Hxn & Hyp & Hyn) Hx.
  destruct (speed_ok_signs b Hs) as [Hdx Hdy].
  destruct b as [[bx by'] [vx vy]]. unfold ball_in_flight.
  cbn [Ball.advance Ball.center Ball.velocity x y dx dy] in *.
  unfold SCREEN_WIDTH, SCREEN_HEIGHT, BALL_RADIUS in *.
  destruct Hdx as [Hdx|Hdx]; destruct Hdy as [Hdy|Hdy]; use_signs;
    four_bounds; lra.
Qed.

Lemma restart_in_flight (b : Ball.t) (s : Random.state) :
  Random.unit_draws s -> ball_in_flight (fst (Ball.restart b s)).
Proof.
  intros Hs. destruct (restart_ranges b s Hs) as (Hx & Hy & Hdx & Hdy).
  cbv zeta in Hx, Hy, Hdx, Hdy. unfold ball_in_flight.
  rewrite Hx. unfold SCREEN_WIDTH, SCREEN_HEIGHT in *.
  four_bounds; lra.
Qed.

Lemma check_miss_in_flight (g : Pong.t) (s : Random.state) :
  Random.unit_draws s ->
  (x (Ball.center (Pong.ball g)) <= SCREEN_WIDTH ->
   ball_in_flight (Pong.ball g)) ->
  ball_in_flight (Pong.ball (fst (Pong.check_miss g s))).
Proof.
  intros Hs Hg.
  destruct (Qlt_le_dec SCREEN_WIDTH (x (Ball.center (Pong.ball g)))) as [H|H].
  - rewrite check_miss_taken by exact H. cbn [fst Pong.ball].
    apply restart_in_flight. exact Hs.
  - rewrite check_miss_skipped by exact H. apply Hg. exact H.
Qed.

Lemma check_hit_in_flight (g : Pong.t) :
  x (Paddle.center (Pong.paddle g)) == SCREEN_WIDTH - PADDLE_WIDTH ->
  ball_in_flight (Pong.ball g) ->
  ball_in_flight (Pong.ball (Pong.check_hit g)).
Proof.
  intros Hp Hf.
  unfold Pong.check_hit. cbv zeta.
  match goal with
  | |- context [if ?a && ?b && ?c then _ else _] =>
      destruct a eqn:Ea; [|exact Hf];
      destruct b eqn:Eb; [|exact Hf];
      destruct c eqn:Ec; [|exact Hf]
  end.
  destruct Hf as (Hxp & Hxn & Hyp & Hyn).
  apply Qltb_lt in Ea, Ec. apply Qabs_Qlt_condition in Ea.
  rewrite Hp in Ea. destruct Ea as [Ea _].
  specialize (Hxp Ec).
  destruct g as [[[bx by'] [vx vy]] p n hl hr]. unfold ball_in_flight.
  cbn [Pong.ball Pong.set_ball Pong.set_score Ball.bounce_horizontal
       Ball.center Ball.velocity x y dx dy andb] in *.
  rewrite Qmult_m1_r.
  rewrite half_paddle_width in Ea.
  unfold SCREEN_WIDTH, SCREEN_HEIGHT, PADDLE_WIDTH, BALL_RADIUS in *.
  four_bounds; use_signs; lra.
Qed.

Lemma check_bounce_in_arena (g : Pong.t) :
  speed_ok (Pong.ball g) -> ball_in_flight (Pong.ball g) ->
  ball_in_arena (Pong.ball (Pong.check_bounce g)).
Proof.
  intros Hs (Hxp & Hxn & Hyp & Hyn).
  destruct (speed_ok_signs _ Hs) as [Hdx Hdy].
  rewrite check_bounce_ball. unfold ball_in_arena.
  cbn [Ball.center Ball.velocity dx dy].
  destruct (Pong.left_wall g) eqn:L;
    [apply left_wall_iff in L
    | assert (L' := fun H => eq_true_false_abs _ (proj2 (left_wall_iff g) H) L)];
  (destruct (Pong.top_wall g) eqn:T;
    [apply top_wall_iff in T
    | assert (T' := fun H => eq_true_false_abs _ (proj2 (top_wall_iff g) H) T)]);
  (destruct (Pong.bottom_wall g) eqn:B;
    [apply bottom_wall_iff in B
    | assert (B' := fun H => eq_true_false_abs _ (proj2 (bottom_wall_iff g) H) B)]);
  cbn [orb];
  unfold SCREEN_WIDTH, SCREEN_HEIGHT, BALL_RADIUS in *;
  destruct Hdx as [Hdx|Hdx]; destruct Hdy as [Hdy|Hdy]; use_signs;
  four_bounds;
    try lra;
    try (exfalso; apply L'; lra);
    try (exfalso; apply T'; lra);
    try (exfalso; apply B'; lra);
    try (destruct (Qlt_le_dec (x (Ball.center (Pong.ball g)) - 10) 0);
         [exfalso; apply L'; lra | lra]);
    try (destruct (Qlt_le_dec (y (Ball.center (Pong.ball g)) - 10) 0);
         [exfalso; apply T'; lra | lra]);
    try (destruct (Qlt_le_dec 300 (y (Ball.center (Pong.ball g)) + 10));
         [exfalso; apply B'; lra | lra]).
Qed.

Lemma update_ball_in_arena (dt : Q) (g : Pong.t) (s : Random.state) :
  Random.unit_draws s -> speed_ok (Pong.ball g) ->
  x (Paddle.center (Pong.paddle g)) == SCREEN_WIDTH - PADDLE_WIDTH ->
  ball_in_arena (Pong.ball g) ->
  ball_in_arena (Pong.ball (fst (Pong.update dt g s))).
Proof.
  intros Hs Hv Hp Ha. rewrite update_unfold. cbv zeta. cbn [fst].
  set (g1 := Pong.check_keys (Pong.set_ball (Ball.advance (Pong.ball g)) g)).
  destruct (check_keys_frame (Pong.set_ball (Ball.advance (Pong.ball g)) g))
    as (Eb & _ & _ & _ & Ex).
  fold g1 in Eb, Ex. cbn [Pong.ball Pong.paddle Pong.set_ball] in Eb, Ex.
  set (g2 := fst (Pong.check_miss g1 s)).
  assert (Hv2 : speed_ok (Pong.ball g2)).
  { apply speed_ok_check_miss; [exact Hs|]. rewrite Eb.
    apply speed_ok_advance. exact Hv. }
  assert (Hf2 : ball_in_flight (Pong.ball g2)).
  { apply check_miss_in_flight; [exact Hs|]. rewrite Eb.
    apply advance_in_flight; assumption. }
  assert (Hp2 : x (Paddle.center (Pong.paddle g2))
                == SCREEN_WIDTH - PADDLE_WIDTH).
  { unfold g2. destruct (check_miss_frame g1 s) as (-> & _).
    rewrite Ex. exact Hp. }
  apply check_bounce_in_arena.
  - apply speed_ok_check_hit. exact Hv2.
  - apply check_hit_in_flight; assumption.
Qed.

Lemma init_ball_in_arena (s : Random.state) :
  Random.unit_draws s ->
  ball_in_arena (Pong.ball (fst (Pong.init SCREEN_WIDTH SCREEN_HEIGHT s))).
Proof.
  intros Hs.
  destruct (restart_ranges (Ball.mk Point_init Velocity_init) s Hs)
    as (Hx & Hy & Hdx & Hdy).
  cbv zeta in Hx, Hy, Hdx, Hdy.
  change (Pong.ball (fst (Pong.init SCREEN_WIDTH SCREEN_HEIGHT s)))
    with (fst (Ball.restart (Ball.mk Point_init Velocity_init) s)).
  unfold ball_in_arena. rewrite Hx.
  unfold SCREEN_WIDTH, SCREEN_HEIGHT, BALL_RADIUS in *.
  four_bounds; lra.
Qed.

Lemma step_ball_in_arena (e : event) (g : Pong.t) (s : Random.state) :
  (Random.unit_draws s /\ speed_ok (Pong.ball g)) /\
  x (Paddle.center (Pong.paddle g)) == SCREEN_WIDTH - PADDLE_WIDTH /\
  ball_in_arena (Pong.ball g) ->
  (Random.unit_draws (snd (step e g s)) /\
   speed_ok (Pong.ball (fst (step e g s)))) /\
  x (Paddle.center (Pong.paddle (fst (step e g s))))
    == SCREEN_WIDTH - PADDLE_WIDTH /\
  ball_in_arena (Pong.ball (fst (step e g s))).
Proof.
  intros (Hsv & Hp & Ha). split; [apply step_speed_ok; exact Hsv|].
  split; [rewrite step_paddle_x; exact Hp|].
  destruct Hsv as [Hs Hv]. destruct e as [dt|k|k]; simpl.
  - apply update_ball_in_arena; assumption.
  - destruct (on_key_press_frame k g) as (-> & _). exact Ha.
  - destruct (on_key_release_frame k g) as (-> & _). exact Ha.
Qed.

(** X6.  In every state the program reaches, the centre of the ball is
    inside the arena horizontally ([0 <= x <= SCREEN_WIDTH]) and at most 5
    units below it vertically ([0 <= y <= SCREEN_HEIGHT + 5]); a ball
    moving left or up is at least a radius away from the wall it moves
    to. *)
Theorem ball_stays_in_arena (g : Pong.t) (Hg : reachable g) :
  ball_in_arena (Pong.ball g) /\
  (0 <= x (Ball.center (Pong.ball g)) /\
   x (Ball.center (Pong.ball g)) <= SCREEN_WIDTH) /\
  (0 <= y (Ball.center (Pong.ball g)) /\
   y (Ball.center (Pong.ball g)) <= SCREEN_HEIGHT + 5).
Proof.
  assert (H : speed_ok (Pong.ball g) /\ ball_in_arena (Pong.ball g)).
  { destruct Hg as (s & es & Hs & <-). rewrite play_unfold.
    pose proof (run_invariant
                  (fun g s =>
                     (Random.unit_draws s /\ speed_ok (Pong.ball g)) /\
                     x (Paddle.center (Pong.paddle g))
                       == SCREEN_WIDTH - PADDLE_WIDTH /\
                     ball_in_arena (Pong.ball g))
                  step_ball_in_arena es
                  (fst (Pong.init SCREEN_WIDTH SCREEN_HEIGHT s))
                  (snd (Pong.init SCREEN_WIDTH SCREEN_HEIGHT s))) as R.
    cbv beta in R. destruct R as ((_ & Hv) & _ & Ha).
    - split; [apply init_speed_ok; exact Hs|].
      split; [reflexivity | apply init_ball_in_arena; exact Hs].
    - split; assumption. }
  destruct H as [Hv Ha]. split; [exact Ha|].
  destruct (speed_ok_signs _ Hv) as [Hdx Hdy].
  destruct Ha as (Hxp & Hxn & Hyp & Hyn).
  unfold SCREEN_WIDTH, SCREEN_HEIGHT, BALL_RADIUS in *.
  destruct Hdx as [Hdx|Hdx]; destruct Hdy as [Hdy|Hdy]; use_signs;
    split; split; lra.
Qed.

Lemma ball_stays_in_arena_witness :
  let g := fst (play hundred_frames (Random.constant 0.5)) in
  ball_in_arena (Pong.ball g) /\
  (0 <= x (Ball.center (Pong.ball g)) /\
   x (Ball.center (Pong.ball g)) <= SCREEN_WIDTH) /\
  (0 <= y (Ball.center (Pong.ball g)) /\
   y (Ball.center (Pong.ball g)) <= SCREEN_HEIGHT + 5).
Proof.
  exact (ball_stays_in_arena _ hundred_frames_reachable).
Defined.

(** X7.  After every frame the ball is not heading into a wall it
    overlaps: none of the three wall tests of [check_bounce] holds in the
    state [update] returns, from whatever state it started. *)
Theorem update_leaves_walls_clear (dt : Q) (g : Pong.t) (s : Random.state) :
  let b := Pong.ball (fst (Pong.update dt g s)) in
  ~ (x (Ball.center b) - BALL_RADIUS < 0 /\ dx (Ball.velocity b) < 0) /\
  ~ (y (Ball.center b) - BALL_RADIUS < 0 /\ dy (Ball.velocity b) < 0) /\
  ~ (SCREEN_HEIGHT < y (Ball.center b) + BALL_RADIUS /\
     0 < dy (Ball.velocity b)).
Proof.
  cbv zeta. rewrite update_unfold. cbv zeta. cbn [fst].
  match goal with
  | |- context [Pong.check_bounce ?h] =>
      destruct (check_bounce_settled h) as (L & T & B);
      set (g' := Pong.check_bounce h) in *
  end.
  split; [|split]; intros H.
  - apply left_wall_iff in H. congruence.
  - apply top_wall_iff in H. congruence.
  - apply bottom_wall_iff in H. congruence.
Qed.

(** X8.  A frame without a miss moves the ball by exactly its velocity
    and changes the velocity by sign only: each component afterwards is
    the old one or its negation. *)
Theorem frame_without_miss (dt : Q) (g : Pong.t) (s : Random.state)
    (Hin : x (Ball.center (Ball.advance (Pong.ball g))) <= SCREEN_WIDTH) :
  let b := Pong.ball g in
  let b' := Pong.ball (fst (Pong.update dt g s)) in
  Ball.center b' = Ball.center (Ball.advance b) /\
  (dx (Ball.velocity b') = dx (Ball.velocity b) \/
   dx (Ball.velocity b') = - dx (Ball.velocity b)) /\
  (dy (Ball.velocity b') = dy (Ball.velocity b) \/
   dy (Ball.velocity b') = - dy (Ball.velocity b)) /\
  snd (Pong.update dt g s) = s.
Proof.
  cbv zeta. rewrite update_unfold. cbv zeta. cbn [fst snd].
  set (g1 := Pong.check_keys (Pong.set_ball (Ball.advance (Pong.ball g)) g)).
  assert (Eb : Pong.ball g1 = Ball.advance (Pong.ball g))
    by apply (check_keys_frame
                (Pong.set_ball (Ball.advance (Pong.ball g)) g)).
  rewrite check_miss_skipped by (rewrite Eb; exact Hin). cbn [fst snd].
  rewrite check_bounce_ball. cbn [Ball.center Ball.velocity dx dy].
  destruct (check_hit_frame g1) as (_ & _ & _ & Ec & Edy).
  rewrite Ec, Edy, Eb. split; [reflexivity|].
  assert (Edx : dx (Ball.velocity (Pong.ball (Pong.check_hit g1)))
                = dx (Ball.velocity (Pong.ball g)) \/
                dx (Ball.velocity (Pong.ball (Pong.check_hit g1)))
                = - dx (Ball.velocity (Pong.ball g))).
  { unfold Pong.check_hit. cbv zeta.
    match goal with
    | |- context [if ?c then _ else _] => destruct c
    end.
    - right. cbn [Pong.ball Pong.set_ball Pong.set_score
                  Ball.bounce_horizontal Ball.velocity dx].
      rewrite Eb, Qmult_m1_r. reflexivity.
    - left. rewrite Eb. reflexivity. }
  split; [|split; [|reflexivity]].
  - destruct (Pong.left_wall _); destruct Edx as [-> | ->];
      rewrite ?Qopp_opp; auto.
  - destruct (_ || _); [right | left]; reflexivity.
Qed.

Lemma frame_without_miss_witness :
  let b := Pong.ball idle_game in
  let b' := Pong.ball (fst (Pong.update 0.016 idle_game
                              (Random.constant 0.5))) in
  Ball.center b' = Ball.center (Ball.advance b) /\
  (dx (Ball.velocity b') = dx (Ball.velocity b) \/
   dx (Ball.velocity b') = - dx (Ball.velocity b)) /\
  (dy (Ball.velocity b') = dy (Ball.velocity b) \/
   dy (Ball.velocity b') = - dy (Ball.velocity b)) /\
  snd (Pong.update 0.016 idle_game (Random.constant 0.5))
    = Random.constant 0.5.
Proof.
  apply (frame_without_miss 0.016 idle_game (Random.constant 0.5)).
  discriminate.
Defined.

(** ** The generator *)

(** X9.  A frame in which the ball has gone past the right edge takes
    exactly three draws from the generator, the first of which places the
    new ball: it is on the left edge at [SCREEN_HEIGHT] times that draw. *)
Theorem miss_takes_three_draws (dt : Q) (g : Pong.t) (s : Random.state)
    (Hmiss : SCREEN_WIDTH < x (Ball.center (Ball.advance (Pong.ball g)))) :
  let g' := fst (Pong.update dt g s) in
  let s' := snd (Pong.update dt g s) in
  Random.cursor s' = (Random.cursor s + 3)%nat /\
  Random.stream s' = Random.stream s /\
  x (Ball.center (Pong.ball g')) = 0 /\
  y (Ball.center (Pong.ball g'))
    = 0 + (SCREEN_HEIGHT - 0) * Random.stream s (Random.cursor s).
Proof.
  cbv zeta. rewrite update_unfold. cbv zeta. cbn [fst snd].
  set (g1 := Pong.check_keys (Pong.set_ball (Ball.advance (Pong.ball g)) g)).
  assert (Eb : Pong.ball g1 = Ball.advance (Pong.ball g))
    by apply (check_keys_frame
                (Pong.set_ball (Ball.advance (Pong.ball g)) g)).
  rewrite check_miss_taken by (rewrite Eb; exact Hmiss). cbn [fst snd].
  destruct (check_bounce_frame
              (Pong.check_hit
                 (Pong.mk (fst (Ball.restart (Pong.ball g1) s))
                    (Pong.paddle g1)
                    (if (5 <=? Pong.score g1)%Z
                     then Pong.score g1 - SCORE_MISS else 0)%Z
                    (Pong.holding_left g1) (Pong.holding_right g1))))
    as (_ & _ & _ & _ & ->).
  destruct (check_hit_frame
              (Pong.mk (fst (Ball.restart (Pong.ball g1) s))
                 (Pong.paddle g1)
                 (if (5 <=? Pong.score g1)%Z
                  then Pong.score g1 - SCORE_MISS else 0)%Z
                 (Pong.holding_left g1) (Pong.holding_right g1)))
    as (_ & _ & _ & -> & _).
  cbn [Pong.ball]. rewrite restart_unfold. cbv zeta. cbn [fst snd].
  repeat split. simpl. rewrite Nat.add_comm. reflexivity.
Qed.

Lemma miss_takes_three_draws_witness :
  let g' := fst (Pong.update 0.016 miss_at_three (Random.constant 0.5)) in
  let s' := snd (Pong.update 0.016 miss_at_three (Random.constant 0.5)) in
  Random.cursor s' = (Random.cursor (Random.constant 0.5) + 3)%nat /\
  Random.stream s' = Random.stream (Random.constant 0.5) /\
  x (Ball.center (Pong.ball g')) = 0 /\
  y (Ball.center (Pong.ball g'))
    = 0 + (SCREEN_HEIGHT - 0)
          * Random.stream (Random.constant 0.5)
              (Random.cursor (Random.constant 0.5)).
Proof.
  apply (miss_takes_three_draws 0.016 miss_at_three (Random.constant 0.5)).
  reflexivity.
Defined.

(** ** The score over a game *)

Lemma update_score_le (dt : Q) (g : Pong.t) (s : Random.state) :
  (0 <= Pong.score g)%Z ->
  (Pong.score (fst (Pong.update dt g s)) <= Pong.score g + 1)%Z.
Proof.
  intros H0. rewrite update_unfold. cbv zeta. cbn [fst].
  set (g1 := Pong.check_keys (Pong.set_ball (Ball.advance (Pong.ball g)) g)).
  assert (E1 : Pong.score g1 = Pong.score g)
    by apply (check_keys_frame
                (Pong.set_ball (Ball.advance (Pong.ball g)) g)).
  destruct (check_bounce_frame (Pong.check_hit (fst (Pong.check_miss g1 s))))
    as (_ & -> & _).
  assert (E2 : (Pong.score (fst (Pong.check_miss g1 s)) <= Pong.score g)%Z).
  { rewrite <- E1.
    destruct (Qlt_le_dec SCREEN_WIDTH (x (Ball.center (Pong.ball g1))))
      as [H|H].
    - rewrite check_miss_taken by exact H. cbn [fst Pong.score].
      unfold SCORE_MISS. destruct (5 <=? Pong.score g1)%Z; lia.
    - rewrite check_miss_skipped by exact H. cbn [fst]. lia. }
  destruct (check_hit_score (fst (Pong.check_miss g1 s))) as [-> | ->]; lia.
Qed.

Lemma run_score_bounds (es : list event) :
  forall (g : Pong.t) (s : Random.state),
  (0 <= Pong.score g)%Z ->
  (0 <= Pong.score (fst (run es g s))
   <= Pong.score g + Z.of_nat (frames es))%Z.
Proof.
  induction es as [|e es IH]; intros g s H0.
  - simpl. unfold frames. simpl. lia.
  - simpl. unfold Random.bind.
    pose proof (step_score_nonneg e g s H0) as H1.
    assert (H2 : (Pong.score (fst (step e g s)) + Z.of_nat (frames es)
                  <= Pong.score g + Z.of_nat (frames (e :: es)))%Z).
    { destruct e as [dt|k|k]; unfold frames; simpl.
      - pose proof (update_score_le dt g s H0).
        fold (frames es). lia.
      - destruct (on_key_press_frame k g) as (_ & _ & ->).
        fold (frames es). lia.
      - destruct (on_key_release_frame k g) as (_ & _ & ->).
        fold (frames es). lia. }
    destruct (step e g s) as [g' s']. cbn [fst] in H1, H2.
    specialize (IH g' s' H1). lia.
Qed.

(** X10.  Over a whole game the score is never negative and never more
    than the number of frames played: a frame adds one point at most. *)
Theorem score_bounded_by_frames (es : list event) (s : Random.state) :
  (0 <= Pong.score (fst (play es s)) <= Z.of_nat (frames es))%Z.
Proof.
  rewrite play_unfold.
  pose proof (run_score_bounds es
                (fst (Pong.init SCREEN_WIDTH SCREEN_HEIGHT s))
                (snd (Pong.init SCREEN_WIDTH SCREEN_HEIGHT s))) as H.
  cbn [Pong.init Pong.score fst] in H.
  change (Pong.score (fst (Pong.init SCREEN_WIDTH SCREEN_HEIGHT s)))
    with 0%Z in H.
  specialize (H ltac:(lia)). lia.
Qed.

(** X11.  A hit is scored once: running [check_hit] again on its own
    result changes nothing, since the ball it leaves is moving away from
    the paddle. *)
Theorem check_hit_scores_once (g : Pong.t) :
  Pong.check_hit (Pong.check_hit g) = Pong.check_hit g.
Proof.
  unfold Pong.check_hit at 2 3. cbv zeta.
  match goal with
  | |- context [if ?a && ?b && ?c then _ else _] =>
      destruct a eqn:Ea; cbn [andb];
      [destruct b eqn:Eb; cbn [andb]; [destruct c eqn:Ec|]|]
  end.
  - apply Qltb_lt in Ec. apply check_hit_skipped. intros (_ & _ & H).
    cbn [Pong.ball Pong.set_ball Pong.set_score Ball.bounce_horizontal
         Ball.velocity dx] in H.
    rewrite Qmult_m1_r in H. lra.
  - unfold Pong.check_hit. cbv zeta. rewrite Ea, Eb, Ec. reflexivity.
  - unfold Pong.check_hit. cbv zeta. rewrite Ea, Eb. reflexivity.
  - unfold Pong.check_hit. cbv zeta. rewrite Ea. reflexivity.
Qed.

(** ** What is drawn *)

Lemma strip_prefix_app (p t : string) :
  strip_prefix p (p ++ t) = Some t.
Proof.
  induction p as [|a p IH]; simpl.
  - reflexivity.
  - rewrite Ascii.eqb_refl. exact IH.
Qed.

Lemma str_int_parses (n : Z) :
  NilZero.int_of_string (str_int n) = Some (Z.to_int n).
Proof.
  unfold str_int. apply NilZero.isi.
  - destruct n as [|p|p]; simpl; try discriminate.
    intros [= E]. exact (Unsigned.to_uint_nonnil p E).
  - destruct n as [|p|p]; simpl; try discriminate.
    intros [= E]. exact (Unsigned.to_uint_nonnil p E).
Qed.

Lemma read_score_line (n : Z) :
  read_score ("Score: " ++ str_int n) = Some n.
Proof.
  unfold read_score. rewrite strip_prefix_app, str_int_parses. simpl.
  rewrite DecimalZ.of_to. reflexivity.
Qed.

(** X12.  The frame shows the score: [on_draw] puts exactly one line of
    text on the screen, and reading the decimal number after its
    ["Score: "] prefix gives back the score, negative or not. *)
Theorem drawn_score_reads_back (g : Pong.t) :
  map read_score (drawn_texts (Pong.on_draw g)) = [Some (Pong.score g)].
Proof.
  unfold Pong.on_draw, Pong.draw_score, Ball.draw, Paddle.draw.
  cbn [app drawn_texts map]. rewrite read_score_line. reflexivity.
Qed.

(** X13.  Two states are drawn alike exactly when they agree on the
    position of the ball, the paddle and the score; the velocity of the
    ball and the held keys do not show. *)
Theorem on_draw_shows (g g' : Pong.t) :
  Pong.on_draw g = Pong.on_draw g' <->
  Ball.center (Pong.ball g) = Ball.center (Pong.ball g') /\
  Pong.paddle g = Pong.paddle g' /\
  Pong.score g = Pong.score g'.
Proof.
  split.
  - intros H.
    unfold Pong.on_draw, Pong.draw_score, Ball.draw, Paddle.draw in H.
    cbn [app] in H. injection H as Hbx Hby Hpx Hpy Htext.
    assert (Hs : Some (Pong.score g) = Some (Pong.score g')).
    { rewrite <- (read_score_line (Pong.score g)),
        <- (read_score_line (Pong.score g')).
      rewrite Htext. reflexivity. }
    injection Hs as Hs. repeat split; trivial.
    + destruct (Ball.center (Pong.ball g)), (Ball.center (Pong.ball g')).
      simpl in *. congruence.
    + destruct (Pong.paddle g) as [[? ?]], (Pong.paddle g') as [[? ?]].
      simpl in *. congruence.
  - intros (Hb & Hp & Hn).
    unfold Pong.on_draw, Pong.draw_score, Ball.draw, Paddle.draw.
    rewrite Hb, Hp, Hn. reflexivity.
Qed.

(** ** What a frame leaves alone *)

(** X14.  [update] never touches the hold flags: they are the same after
    the frame as before, so only the key callbacks decide them. *)
Theorem update_keeps_hold_flags (dt : Q) (g : Pong.t) (s : Random.state) :
  Pong.holding_left (fst (Pong.update dt g s)) = Pong.holding_left g /\
  Pong.holding_right (fst (Pong.update dt g s)) = Pong.holding_right g.
Proof.
  rewrite update_unfold. cbv zeta. cbn [fst].
  set (g0 := Pong.set_ball (Ball.advance (Pong.ball g)) g).
  destruct (check_bounce_frame
              (Pong.check_hit (fst (Pong.check_miss (Pong.check_keys g0) s))))
    as (_ & _ & -> & -> & _).
  destruct (check_hit_frame (fst (Pong.check_miss (Pong.check_keys g0) s)))
    as (_ & -> & -> & _).
  destruct (check_miss_frame (Pong.check_keys g0) s) as (_ & -> & -> & _).
  destruct (check_keys_frame g0) as (_ & _ & -> & -> & _).
  split; reflexivity.
Qed.

(** X15.  The score goes down only on a miss: in a frame where the ball
    has not gone past the right edge, the score stays or goes up by one. *)
Theorem score_drops_only_on_miss (dt : Q) (g : Pong.t) (s : Random.state)
    (Hin : x (Ball.center (Ball.advance (Pong.ball g))) <= SCREEN_WIDTH) :
  Pong.score (fst (Pong.update dt g s)) = Pong.score g \/
  Pong.score (fst (Pong.update dt g s)) = (Pong.score g + 1)%Z.
Proof.
  rewrite update_unfold. cbv zeta. cbn [fst].
  set (g1 := Pong.check_keys (Pong.set_ball (Ball.advance (Pong.ball g)) g)).
  destruct (check_keys_frame (Pong.set_ball (Ball.advance (Pong.ball g)) g))
    as (Eb & En & _).
  fold g1 in Eb, En. cbn [Pong.ball Pong.score Pong.set_ball] in Eb, En.
  rewrite check_miss_skipped by (rewrite Eb; exact Hin). cbn [fst].
  destruct (check_bounce_frame (Pong.check_hit g1)) as (_ & -> & _).
  rewrite <- En. apply check_hit_score.
Qed.

Lemma score_drops_only_on_miss_witness :
  Pong.score (fst (Pong.update 0.016 idle_game (Random.constant 0.5)))
    = Pong.score idle_game \/
  Pong.score (fst (Pong.update 0.016 idle_game (Random.constant 0.5)))
    = (Pong.score idle_game + 1)%Z.
Proof.
  apply (score_drops_only_on_miss 0.016 idle_game (Random.constant 0.5)).
  discriminate.
Defined.
